(** * enex2notion: the command line driver, its resume ledger and its retry loop

    A shallow embedding of [enex2notion/cli.py]:
    - Python strings are [string]s whose characters are the code points
      U+0000 .. U+00FF;
    - the files the program opens itself (the done file) live in a finite map
      from paths to nodes; a path is the list of its parts, as [pathlib]
      keeps them;
    - sets of note hashes are [gset string];
    - the collaborators ([iter_notes], [parse_note], [upload_note], the Notion
      client) are parameters of the run, and every call to one of them, every
      log record and every write to the done file is an event of the trace
      that a run returns, in program order. *)

From Stdlib Require Import ZArith NArith Ascii String List Sorted.
From stdpp Require Import base tactics option list orders sorting gmap sets
  strings lexico pretty.

#[local] Set Warnings "-clear-no-such-hyp".

Local Open Scope string_scope.
Local Open Scope nat_scope.
Local Open Scope list_scope.

(** ** Python strings *)

Module PyStr.

(** [str.isspace] on the code points below 256. *)
Definition isspace (c : ascii) : bool :=
  let n := N_of_ascii c in
  ((9 <=? n) && (n <=? 13) || (28 <=? n) && (n <=? 32)
   || (n =? 133) || (n =? 160))%N.

Definition LF : ascii := "010"%char.
Definition CR : ascii := "013"%char.

Fixpoint lstrip (s : string) : string :=
  match s with
  | EmptyString => EmptyString
  | String c s' => if isspace c then lstrip s' else s
  end.

Fixpoint rstrip (s : string) : string :=
  match s with
  | EmptyString => EmptyString
  | String c s' =>
      match rstrip s' with
      | EmptyString => if isspace c then EmptyString else String c EmptyString
      | r => String c r
      end
  end.

(** [s.strip()] *)
Definition strip (s : string) : string := rstrip (lstrip s).

(** What a file opened in text mode hands out: "\r\n" and "\r" become "\n". *)
Fixpoint universal_newlines (s : string) : string :=
  match s with
  | EmptyString => EmptyString
  | String c s' =>
      if Ascii.eqb c CR then
        match s' with
        | String c' s'' =>
            if Ascii.eqb c' LF then String LF (universal_newlines s'')
            else String LF (universal_newlines s')
        | EmptyString => String LF EmptyString
        end
      else String c (universal_newlines s')
  end.

(** [for line in f]: the lines keep their "\n"; a last line without one is
    still a line. *)
Fixpoint readlines (s : string) : list string :=
  match s with
  | EmptyString => []
  | String c s' =>
      if Ascii.eqb c LF then String LF EmptyString :: readlines s'
      else match readlines s' with
           | [] => [String c EmptyString]
           | l :: ls => String c l :: ls
           end
  end.

Fixpoint has_linebreak (s : string) : bool :=
  match s with
  | EmptyString => false
  | String c s' => Ascii.eqb c LF || Ascii.eqb c CR || has_linebreak s'
  end.

(** [s.rfind(c)] *)
Fixpoint rfind (c : ascii) (s : string) : option nat :=
  match s with
  | EmptyString => None
  | String a s' =>
      match rfind c s' with
      | Some i => Some (S i)
      | None => if Ascii.eqb a c then Some 0 else None
      end
  end.

(** [s.endswith(suffix)] *)
Definition endswith (s suffix : string) : bool :=
  let n := String.length s in
  let m := String.length suffix in
  (m <=? n)%nat && String.eqb (substring (n - m) m s) suffix.

(** Strings compare by code point, position by position. *)
Definition code_points (s : string) : list N :=
  N_of_ascii <$> list_ascii_of_string s.

End PyStr.

(** ** Paths and the file system *)

(** [pathlib.PurePath.parts] *)
Definition Path : Type := list string.

Inductive node : Type :=
| File (content : string)
| Dir.

Module PyPath.

(** [Path.name] *)
Definition name (p : Path) : string := List.last p "".

(** [Path.stem]: the name without its last suffix. *)
Definition stem (p : Path) : string :=
  let n := name p in
  match PyStr.rfind "."%char n with
  | Some i =>
      if ((0 <? i) && (i <? String.length n - 1))%nat
      then substring 0 i n else n
  | None => n
  end.

(** Paths order as their lists of parts do. *)
Definition key (p : Path) : list (list N) := PyStr.code_points <$> p.

Definition lt (p q : Path) : Prop := lexico (key p) (key q).
Definition le (p q : Path) : Prop := ¬ lt q p.

#[global] Instance lt_dec (p q : Path) : Decision (lt p q).
Proof. unfold lt. apply _. Defined.

#[global] Instance le_dec (p q : Path) : Decision (le p q).
Proof. unfold le. apply _. Defined.

(** [d] is a proper ancestor of [p]. *)
Definition under (d p : Path) : bool :=
  (length d <? length p)%nat && bool_decide (take (length d) p = d).

End PyPath.

Definition is_dir (fs : gmap Path node) (p : Path) : bool :=
  match fs !! p with
  | Some Dir => true
  | _ => false
  end.

(** Every directory on the way from [d] down to [p], [d] included, is there
    to be listed. *)
Definition reachable (fs : gmap Path node) (d p : Path) : bool :=
  forallb (λ n, is_dir fs (take n p)) (seq (length d) (length p - length d)).

(** The paths [d.glob("**/*.enex")] yields, in no particular order: every
    entry below [d], of any kind, whose name matches. *)
Definition glob_enex (fs : gmap Path node) (d : Path) : list Path :=
  filter (λ p, PyPath.under d p && reachable fs d p
                 && PyStr.endswith (PyPath.name p) ".enex")
         (map_to_list fs).*1.

(** [sorted(paths)] *)
Definition sorted (l : list Path) : list Path := merge_sort PyPath.le l.

(** ** Exceptions and the result of a call *)

Inductive exn : Type :=
| NoteUploadFailException
| ParseNoteException
| IsADirectoryError
| SystemExit (code : Z).

Inductive result (A : Type) : Type :=
| Ok (a : A)
| Raise (e : exn).

Arguments Ok {A} a.
Arguments Raise {A} e.

(** ** The done file *)

Module DoneFile.

Record t : Type := { path : Path; done_hashes : gset string }.

(** The set comprehension of [__init__] over the text of the file. *)
Definition load (text : string) : gset string :=
  list_to_set (PyStr.strip <$> PyStr.readlines (PyStr.universal_newlines text)).

(** [DoneFile(path)]: a missing file is the one failure that is caught. *)
Definition init (fs : gmap Path node) (p : Path) : result t :=
  match fs !! p with
  | Some (File text) => Ok {| path := p; done_hashes := load text |}
  | Some Dir => Raise IsADirectoryError
  | None => Ok {| path := p; done_hashes := ∅ |}
  end.

(** [note_hash in done_file] *)
Definition contains (d : t) (note_hash : string) : bool :=
  bool_decide (note_hash ∈ done_hashes d).

(** [open(path, "a")] then [f.write(text)] *)
Definition append (fs : gmap Path node) (p : Path) (text : string)
  : result (gmap Path node) :=
  match fs !! p with
  | Some (File old) => Ok (<[p := File (old +:+ text)]> fs)
  | Some Dir => Raise IsADirectoryError
  | None => Ok (<[p := File text]> fs)
  end.

Definition line (note_hash : string) : string :=
  note_hash +:+ String PyStr.LF EmptyString.

(** [done_file.add(note_hash)]: the set first, then the file. *)
Definition add (d : t) (note_hash : string) (fs : gmap Path node)
  : t * result (gmap Path node) :=
  ({| path := path d; done_hashes := {[note_hash]} ∪ done_hashes d |},
   append fs (path d) (line note_hash)).



(** A hash the file hands back as it was written: no line break inside, no
    blank at either end. *)
Definition clean (h : string) : bool :=
  negb (PyStr.has_linebreak h) && bool_decide (PyStr.strip h = h).

(** The text of the file at [p], a missing file counting as empty. *)
Definition text_at (fs : gmap Path node) (p : Path) : string :=
  match fs !! p with
  | Some (File text) => text
  | _ => ""
  end.

(** The lines a list of hashes makes. *)
Fixpoint lines (hs : list string) : string :=
  match hs with
  | [] => ""
  | h :: hs' => line h +:+ lines hs'
  end.

End DoneFile.

(** ** Notes, settings and the collaborators *)

(** The fields of a note that the driver reads, and the body it passes on. *)
Record Note : Type := {
  title : string;
  note_hash : string;
  tags : list string;
  content : string
}.

#[global] Instance Note_eq_dec : EqDecision Note.
Proof. solve_decision. Defined.

Inductive Mode : Type := DB | PAGE.
Inductive ModeWebclips : Type := TXT | PDF.

(** The namespace [parse_args] returns: one field per entry of its schema
    ([--version] only prints). *)
Module Args.
Record t : Type := {
  enex_input : list Path;
  token : option string;
  root_page : string;
  mode : Mode;
  mode_webclips : ModeWebclips;
  add_pdf_preview : bool;
  add_meta : bool;
  tag : option string;
  condense_lines : bool;
  condense_lines_sparse : bool;
  done_file : option Path;
  log : option Path;
  verbose : bool
}.
End Args.

(** The option strings of the schema of [parse_args], in its order. *)
Definition option_strings : list string :=
  [ "--token"; "--root-page"; "--mode"; "--mode-webclips"; "--add-pdf-preview";
    "--add-meta"; "--tag"; "--condense-lines"; "--condense-lines-sparse";
    "--done-file"; "--log"; "--verbose"; "--version" ].

(** The options a command line word can stand for: itself, or the ones it
    abbreviates. *)
Definition options_matching (word : string) : list string :=
  filter (λ o, String.prefix word o) option_strings.

(** Truth value of an optional string: [None] and [""] are false. *)
Definition truthy (o : option string) : bool :=
  match o with
  | Some (String _ _) => true
  | _ => false
  end.

Inductive level : Type := DEBUG | INFO | WARNING | ERROR.

(** What a run does that can be seen from outside, in program order. *)
Inductive event : Type :=
| Log (lv : level) (msg : string)
| EnsureWkhtmltopdf
| GetNotionClient (tok : string)
| GetImportRoot (name : string)
| GetNotebookDatabase (notebook_title : string)
| GetNotebookPage (notebook_title : string)
| IterNotes (enex_file : Path)
| ParseNote (note : Note)
| UploadNote (note : Note) (ok : bool)
| FileAppend (p : Path) (text : string).

#[global] Instance level_eq_dec : EqDecision level.
Proof. solve_decision. Defined.

#[global] Instance event_eq_dec : EqDecision event.
Proof. solve_decision. Defined.

(** The modules the driver imports. [upload_note_fails n] tells whether call
    number [n] of [upload_note] in this run (counted from 0) raises
    [NoteUploadFailException]; [parse_note] and the notebook lookups answer
    [None] when they raise. *)
Record Env : Type := {
  Block : Type;
  Root : Type;
  Client : Type;
  iter_notes : Path → list Note;
  parse_note : Note → ModeWebclips → bool → bool → bool → bool
               → option (list Block);
  upload_note_fails : nat → bool;
  get_notion_client : string → option Client;
  get_import_root : Client → string → Root;
  get_notebook_database : Root → string → option Root;
  get_notebook_page : Root → string → option Root;
  has_wkhtmltopdf : bool
}.

(** ** The state of a run and its monad *)

(** [self.done_hashes] is a [DoneFile] or a plain [set]. *)
Inductive done_store : Type :=
| InFile (d : DoneFile.t)
| InSet (s : gset string).

Record state : Type := {
  fs : gmap Path node;
  done : done_store;
  upload_calls : nat
}.

(** The state after one more call of [upload_note]. *)
Definition called (s : state) : state :=
  {| fs := fs s; done := done s; upload_calls := S (upload_calls s) |}.

Definition M (A : Type) : Type := state → result A * state * list event.

#[global] Instance M_ret : MRet M := λ A a s, (Ok a, s, []).

#[global] Instance M_bind : MBind M := λ A B k m s,
  match m s with
  | (Ok a, s1, t1) => let '(r, s2, t2) := k a s1 in (r, s2, t1 ++ t2)
  | (Raise e, s1, t1) => (Raise e, s1, t1)
  end.

Definition raise {A : Type} (e : exn) : M A := λ s, (Raise e, s, []).

Definition emit (e : event) : M unit := λ s, (Ok tt, s, [e]).

Definition logger (lv : level) (msg : string) : M unit := emit (Log lv msg).

Definition get_done : M done_store := λ s, (Ok (done s), s, []).

(** [try: m except NoteUploadFailException: ...]: tells whether the handler
    is entered; any other exception goes on. *)
Definition except_NoteUploadFail (m : M unit) : M bool := λ s,
  match m s with
  | (Ok _, s1, t1) => (Ok false, s1, t1)
  | (Raise NoteUploadFailException, s1, t1) => (Ok true, s1, t1)
  | (Raise e, s1, t1) => (Raise e, s1, t1)
  end.

(** The outcome, the final state and the trace of a run. *)
Definition outcome {A : Type} (x : result A * state * list event) : result A :=
  x.1.1.
Definition final {A : Type} (x : result A * state * list event) : state :=
  x.1.2.
Definition trace {A : Type} (x : result A * state * list event) : list event :=
  x.2.

(** [done_hashes] as a set, whichever object holds it. *)
Definition hashes (d : done_store) : gset string :=
  match d with
  | InFile f => DoneFile.done_hashes f
  | InSet s => s
  end.

(** [note_hash in self.done_hashes] *)
Definition done_contains (d : done_store) (h : string) : bool :=
  match d with
  | InFile f => DoneFile.contains f h
  | InSet s => bool_decide (h ∈ s)
  end.

(** [self.done_hashes.add(note_hash)] *)
Definition done_add (h : string) : M unit := λ s,
  match done s with
  | InFile f =>
      match DoneFile.add f h (fs s) with
      | (f', Ok fs') =>
          (Ok tt, {| fs := fs'; done := InFile f';
                     upload_calls := upload_calls s |},
           [FileAppend (DoneFile.path f) (DoneFile.line h)])
      | (f', Raise e) =>
          (Raise e, {| fs := fs s; done := InFile f';
                       upload_calls := upload_calls s |}, [])
      end
  | InSet hs =>
      (Ok tt, {| fs := fs s; done := InSet ({[h]} ∪ hs);
                 upload_calls := upload_calls s |}, [])
  end.

Definition get_fs : M (gmap Path node) := λ s, (Ok (fs s), s, []).

(** ** The driver *)

Section Driver.

Context (env : Env).

(** One call of the imported [upload_note]: it consumes one answer of the
    remote side. *)
Definition upload_note (notebook_root : Root env) (note : Note)
    (note_blocks : list (Block env)) : M unit := λ s,
  let fails := upload_note_fails env (upload_calls s) in
  (if fails then Raise NoteUploadFailException else Ok tt,
   {| fs := fs s; done := done s; upload_calls := S (upload_calls s) |},
   [UploadNote note (negb fails)]).

Definition retry_message (note : Note) : string :=
  "Failed to upload note '" +:+ title note +:+ "' to Notion! Retrying...".

(** The body of [for attempt in ...] of [_upload_note], over the attempt
    numbers still to run. *)
Fixpoint _upload_note_attempts (attempts : list nat) (notebook_root : Root env)
    (note : Note) (note_blocks : list (Block env)) : M unit :=
  match attempts with
  | [] => mret tt
  | attempt :: rest =>
      failed ← except_NoteUploadFail
                 (upload_note notebook_root note note_blocks);
      if failed : bool then
        if (attempt =? 4)%nat then raise NoteUploadFailException
        else
          logger WARNING (retry_message note);;
          _upload_note_attempts rest notebook_root note note_blocks
      else mret tt
  end.

(** [_upload_note]: [for attempt in range(5)] *)
Definition _upload_note (notebook_root : Root env) (note : Note)
    (note_blocks : list (Block env)) : M unit :=
  _upload_note_attempts (seq 0 5) notebook_root note note_blocks.

(** The attributes of an [EnexUploader] that never change; its
    [done_hashes] is the [done] of the state. *)
Record EnexUploader : Type := {
  import_root : option (Root env);
  mode : Mode;
  mode_webclips : ModeWebclips;
  add_meta : bool;
  add_pdf_preview : bool;
  condense_lines : bool;
  condense_lines_sparse : bool;
  custom_tag : option string
}.

(** [EnexUploader.__init__]: a path object is always true, so a done file is
    opened whenever one is given. *)
Definition EnexUploader_init (root : option (Root env)) (m : Mode)
    (mw : ModeWebclips) (done_file : option Path)
    (meta pdf_preview condense condense_sparse : bool)
    (tag : option string) : M EnexUploader := λ s,
  let self := {| import_root := root; mode := m; mode_webclips := mw;
                 add_meta := meta; add_pdf_preview := pdf_preview;
                 condense_lines := condense;
                 condense_lines_sparse := condense_sparse;
                 custom_tag := tag |} in
  match done_file with
  | Some p =>
      match DoneFile.init (fs s) p with
      | Ok d => (Ok self, {| fs := fs s; done := InFile d;
                             upload_calls := upload_calls s |}, [])
      | Raise e => (Raise e, s, [])
      end
  | None => (Ok self, {| fs := fs s; done := InSet ∅;
                         upload_calls := upload_calls s |}, [])
  end.

(** [EnexUploader._parse_note] *)
Definition _parse_note (self : EnexUploader) (note : Note)
  : M (list (Block env)) :=
  emit (ParseNote note);;
  match parse_note env note (mode_webclips self) (add_meta self)
          (add_pdf_preview self) (condense_lines self)
          (condense_lines_sparse self) with
  | Some note_blocks => mret note_blocks
  | None =>
      logger ERROR ("Unhandled exception while parsing note '"
                    +:+ title note +:+ "'!");;
      raise ParseNoteException
  end.

(** [EnexUploader._get_notebook_root] *)
Definition _get_notebook_root (self : EnexUploader) (notebook_title : string)
  : M (option (Root env)) :=
  match import_root self with
  | None => mret None
  | Some root =>
      match mode self with
      | DB =>
          emit (GetNotebookDatabase notebook_title);;
          match get_notebook_database env root notebook_title with
          | Some r => mret (Some r)
          | None => raise NoteUploadFailException
          end
      | PAGE =>
          emit (GetNotebookPage notebook_title);;
          match get_notebook_page env root notebook_title with
          | Some r => mret (Some r)
          | None => raise NoteUploadFailException
          end
      end
  end.

(** [if self.custom_tag and self.custom_tag not in note.tags:
       note.tags.append(self.custom_tag)] *)
Definition append_custom_tag (self : EnexUploader) (note : Note) : Note :=
  match custom_tag self with
  | Some t =>
      if truthy (Some t) && negb (bool_decide (t ∈ tags note))
      then {| title := title note; note_hash := note_hash note;
              tags := tags note ++ [t]; content := content note |}
      else note
  | None => note
  end.

(** The [for note in iter_notes(enex_file)] of [EnexUploader.upload]. *)
Fixpoint upload_notes (self : EnexUploader) (notebook_root : option (Root env))
    (notes : list Note) : M unit :=
  match notes with
  | [] => mret tt
  | note :: rest =>
      d ← get_done;
      if done_contains d (note_hash note) then
        logger DEBUG ("Skipping note '" +:+ title note
                      +:+ "' (already uploaded)");;
        upload_notes self notebook_root rest
      else
        let note := append_custom_tag self note in
        note_blocks ← _parse_note self note;
        match note_blocks with
        | [] => upload_notes self notebook_root rest
        | _ :: _ =>
            match notebook_root with
            | Some r =>
                _upload_note r note note_blocks;;
                done_add (note_hash note);;
                upload_notes self notebook_root rest
            | None => upload_notes self notebook_root rest
            end
        end
  end.

(** [EnexUploader.upload] *)
Definition upload (self : EnexUploader) (enex_file : Path) : M unit :=
  logger INFO ("Processing notebook '" +:+ PyPath.stem enex_file +:+ "'...");;
  notebook_root ← _get_notebook_root self (PyPath.stem enex_file);
  emit (IterNotes enex_file);;
  upload_notes self notebook_root (iter_notes env enex_file).

(** [get_root] *)
Definition get_root (tok : option string) (name : string)
  : M (option (Root env)) :=
  match tok with
  | Some (String c t) =>
      emit (GetNotionClient (String c t));;
      match get_notion_client env (String c t) with
      | Some client =>
          emit (GetImportRoot name);;
          mret (Some (get_import_root env client name))
      | None =>
          logger ERROR "Invalid token provided!";;
          raise (SystemExit 1)
      end
  | _ =>
      logger WARNING
        "No token provided, dry run mode. Nothing will be uploaded to Notion!";;
      mret None
  end.

(** Modelled from the spec: [ensure_wkhtmltopdf] of [cli_wkhtmltopdf], which
    is not among the sources; without the renderer the run ends before any
    work begins. *)
Definition ensure_wkhtmltopdf : M unit :=
  emit EnsureWkhtmltopdf;;
  if has_wkhtmltopdf env then mret tt else raise (SystemExit 1).

(** [for enex_file in sorted(...): enex_uploader.upload(enex_file)] *)
Fixpoint upload_files (self : EnexUploader) (files : list Path) : M unit :=
  match files with
  | [] => mret tt
  | enex_file :: rest => upload self enex_file;; upload_files self rest
  end.


(** [for enex_input in args.enex_input] of [cli] *)
Fixpoint cli_inputs (self : EnexUploader) (inputs : list Path) : M unit :=
  match inputs with
  | [] => mret tt
  | enex_input :: rest =>
      files ← get_fs;
      (if is_dir files enex_input then
         logger INFO ("Processing directory '" +:+ PyPath.name enex_input
                      +:+ "'...");;
         upload_files self (sorted (glob_enex files enex_input))
       else upload self enex_input);;
      cli_inputs self rest
  end.

(** [cli], from the parsed arguments on. The log records stand for the calls
    of [logger]; the handlers [_setup_logging] installs are not modelled. *)
Definition cli (args : Args.t) : M unit :=
  (match Args.mode_webclips args with
   | PDF => ensure_wkhtmltopdf
   | TXT => mret tt
   end);;
  root ← get_root (Args.token args) (Args.root_page args);
  enex_uploader ← EnexUploader_init root (Args.mode args)
                    (Args.mode_webclips args) (Args.done_file args)
                    (Args.add_meta args) (Args.add_pdf_preview args)
                    (Args.condense_lines args)
                    (Args.condense_lines_sparse args) (Args.tag args);
  cli_inputs enex_uploader (Args.enex_input args).

(** A run of the program on a file system. *)
Definition run (args : Args.t) (files : gmap Path node)
  : result unit * state * list event :=
  cli args {| fs := files; done := InSet ∅; upload_calls := 0 |}.

End Driver.

(** ** Reading a trace *)

Definition is_upload_attempt (e : event) : bool :=
  match e with UploadNote _ _ => true | _ => false end.

Definition is_failed_attempt (e : event) : bool :=
  match e with UploadNote _ false => true | _ => false end.

Definition is_warning (e : event) : bool :=
  match e with Log WARNING _ => true | _ => false end.

Definition count (f : event → bool) (t : list event) : nat :=
  length (filter (λ e, f e) t).

(** A failed attempt and the warning that follows it, [k] times over. *)
Fixpoint retries (note : Note) (msg : string) (k : nat) : list event :=
  match k with
  | 0 => []
  | S k' => UploadNote note false :: Log WARNING msg :: retries note msg k'
  end.

(** How many of the calls [c], [c + 1], .. of [upload_note] fail in a row,
    looking at [n] of them at most. *)
Fixpoint leading_failures (fails : nat → bool) (c n : nat) : nat :=
  match n with
  | 0 => 0
  | S n' => if fails c then S (leading_failures fails (S c) n') else 0
  end.

Definition is_ok {A : Type} (r : result A) : bool :=
  match r with Ok _ => true | Raise _ => false end.

(** The hashes of the notes whose upload succeeded, in order. *)
Fixpoint uploaded (t : list event) : list string :=
  match t with
  | [] => []
  | UploadNote n true :: t' => note_hash n :: uploaded t'
  | _ :: t' => uploaded t'
  end.

(** The export files whose notes were read, in order. *)
Fixpoint processed_files (t : list event) : list Path :=
  match t with
  | [] => []
  | IterNotes f :: t' => f :: processed_files t'
  | _ :: t' => processed_files t'
  end.


(** The calls of [upload_note] for the hash [h]. *)
Definition is_upload_of (h : string) (e : event) : bool :=
  match e with
  | UploadNote n _ => bool_decide (note_hash n = h)
  | _ => false
  end.

(** Events that touch neither the remote side nor the done file. *)
Definition is_local (e : event) : bool :=
  match e with
  | Log _ _ | EnsureWkhtmltopdf | IterNotes _ | ParseNote _ => true
  | _ => false
  end.

(** The done file of a run, when it has one. *)
Definition ledger (d : done_store) : option Path :=
  match d with
  | InFile f => Some (DoneFile.path f)
  | InSet _ => None
  end.

(** The path of the done file does not name a directory. *)
Definition ledger_free (s : state) : Prop :=
  ∀ p, ledger (done s) = Some p → fs s !! p ≠ Some Dir.

(** The discipline of uploads and done file writes along a trace. [seen] is
    the set of hashes known as done so far and [pending] the hash of an
    upload that has just succeeded and is not yet written. An attempt is only
    made for a hash that is not done; with a done file [p], a success is
    followed at once by the line of its hash appended to [p], and nothing
    else is ever appended; without one, nothing is appended at all. *)
Fixpoint trace_ok (p : option Path) (pending : option string)
    (seen : gset string) (t : list event) : Prop :=
  match t with
  | [] => pending = None
  | e :: t' =>
      match pending with
      | Some h =>
          ∃ q, p = Some q ∧ e = FileAppend q (DoneFile.line h)
               ∧ trace_ok p None ({[h]} ∪ seen) t'
      | None =>
          match e with
          | UploadNote n true =>
              (note_hash n ∉ seen)
              ∧ match p with
                | Some _ => trace_ok p (Some (note_hash n)) seen t'
                | None => trace_ok p None ({[note_hash n]} ∪ seen) t'
                end
          | UploadNote n false =>
              (note_hash n ∉ seen) ∧ trace_ok p None seen t'
          | FileAppend _ _ => False
          | _ => trace_ok p None seen t'
          end
      end
  end.

(** A relation between the state before a computation, whether it returned,
    its trace and the state after it. *)
Definition rel : Type := state → bool → list event → state → Prop.

Definition holds {A : Type} (R : rel) (m : M A) (s : state) : Prop :=
  R s (is_ok (outcome (m s))) (trace (m s)) (final (m s)).

(** Relations that follow a computation through its sequencing. *)
Record composable (R : rel) : Prop := {
  comp_nil : ∀ s b, R s b [] s;
  comp_app : ∀ s t1 s1 b t2 s2,
    R s true t1 s1 → R s1 b t2 s2 → R s b (t1 ++ t2) s2
}.

(** What every run keeps true of its uploads and of its done file. *)
Definition ledger_rel : rel := λ s _ t s',
  ledger_free s →
  ledger_free s'
  ∧ ledger (done s') = ledger (done s)
  ∧ hashes (done s') = list_to_set (uploaded t) ∪ hashes (done s)
  ∧ trace_ok (ledger (done s)) None (hashes (done s)) t
  ∧ (∀ p, ledger (done s) = Some p →
       DoneFile.text_at (fs s') p
       = DoneFile.text_at (fs s) p +:+ DoneFile.lines (uploaded t))
  ∧ (∀ q, ledger (done s) ≠ Some q → fs s' !! q = fs s !! q).

(** A result with more events in front of its trace. *)
Definition prepend {A : Type} (t0 : list event)
    (x : result A * state * list event) : result A * state * list event :=
  (outcome x, final x, t0 ++ trace x).

(** The state after [k] more calls of [upload_note]. *)
Definition called_times (k : nat) (s : state) : state :=
  {| fs := fs s; done := done s; upload_calls := k + upload_calls s |}.

(** The events of [cli] before it turns to its inputs. *)
Definition is_prelude (e : event) : bool :=
  match e with
  | Log _ _ | EnsureWkhtmltopdf | GetNotionClient _ | GetImportRoot _ => true
  | _ => false
  end.

(** The uploader [cli] builds from its arguments and the root it found. *)
Definition uploader_of (env : Env) (args : Args.t) (root : option (Root env))
  : EnexUploader env :=
  {| import_root := root; mode := Args.mode args;
     mode_webclips := Args.mode_webclips args;
     add_meta := Args.add_meta args;
     add_pdf_preview := Args.add_pdf_preview args;
     condense_lines := Args.condense_lines args;
     condense_lines_sparse := Args.condense_lines_sparse args;
     custom_tag := Args.tag args |}.

(** The done hashes a run starts from. *)
Definition initial_done (files : gmap Path node) (done_file : option Path)
  : done_store :=
  match done_file with
  | Some p =>
      InFile {| DoneFile.path := p;
                DoneFile.done_hashes :=
                  DoneFile.load (DoneFile.text_at files p) |}
  | None => InSet ∅
  end.

(** The state in which [cli] turns to its inputs. *)
Definition ready (args : Args.t) (s : state) : state :=
  {| fs := fs s; done := initial_done (fs s) (Args.done_file args);
     upload_calls := upload_calls s |}.

(** The note as [parse_note] gets it yields at least one block. *)
Definition has_blocks (env : Env) (self : EnexUploader env) (n : Note) : Prop :=
  ∃ b bs,
    parse_note env (append_custom_tag env self n) (mode_webclips env self)
      (add_meta env self) (add_pdf_preview env self) (condense_lines env self)
      (condense_lines_sparse env self)
    = Some (b :: bs).

(** Besides [ledger_rel]: once a computation has returned, every note with
    blocks of every export file it read is done. *)
Definition complete_rel (env : Env) (self : EnexUploader env) : rel :=
  λ s ok t s',
    ledger_rel s ok t s'
    ∧ (ledger_free s → ok = true → import_root env self ≠ None →
       ∀ f n, f ∈ processed_files t → n ∈ iter_notes env f →
              has_blocks env self n → note_hash n ∈ hashes (done s')).



(** ** Human readable sizes *)

(** [n / d] to the nearest whole number, a tie going to the even one. *)
Definition round_half_even (n d : N) : N :=
  let q := (n / d)%N in
  let r := (n mod d)%N in
  if (2 * r <? d)%N then q
  else if (d <? 2 * r)%N then (q + 1)%N
  else if N.even q then q else (q + 1)%N.

(** [n / d] printed with one digit after the point. *)
Definition one_decimal (n d : N) : string :=
  let tenths := round_half_even (10 * n) d in
  pretty (tenths / 10)%N +:+ "." +:+ pretty (tenths mod 10)%N.

Fixpoint _sizeof_fmt_units (num scale : N) (units : list string) : string :=
  match units with
  | [] => one_decimal num scale +:+ "TB"
  | unit :: rest =>
      if (num <? 1024 * scale)%N then one_decimal num scale +:+ unit
      else _sizeof_fmt_units num (1024 * scale) rest
  end.

(** Modelled from the spec: [_sizeof_fmt] of [enex_uploader_block], which is
    not among the sources (only its test is): binary units B, KB, MB, GB and
    TB, a bare integer for bytes, one digit after the point from KB on. *)
Definition _sizeof_fmt (num : N) : string :=
  if (num <? 1024)%N then pretty num +:+ "B"
  else _sizeof_fmt_units num 1024 ["KB"; "MB"; "GB"].

(** ** The runs of the test suite *)

Definition fake_note (h : string) : Note :=
  {| title := "fake"; note_hash := h; tags := []; content := "" |}.

(** The mocked collaborators of [test_cli.py]: [notes] is what [iter_notes]
    returns, [fails] the side effects of [upload_note]. *)
Definition mock_api (notes : list Note) (fails : nat → bool) : Env :=
  {| Block := unit; Root := unit; Client := unit;
     iter_notes := λ _, notes;
     parse_note := λ _ _ _ _ _ _, Some [tt];
     upload_note_fails := fails;
     get_notion_client := λ _, Some tt;
     get_import_root := λ _ _, tt;
     get_notebook_database := λ _ _, Some tt;
     get_notebook_page := λ _ _, Some tt;
     has_wkhtmltopdf := true |}.

(** The namespace of [cli([.., "fake.enex"])] with the defaults of the
    schema. *)
Definition default_args (tok : option string) (done_file : option Path)
    (inputs : list Path) : Args.t :=
  {| Args.enex_input := inputs; Args.token := tok;
     Args.root_page := "Evernote ENEX Import"; Args.mode := DB;
     Args.mode_webclips := TXT; Args.add_pdf_preview := false;
     Args.add_meta := false; Args.tag := None; Args.condense_lines := false;
     Args.condense_lines_sparse := false; Args.done_file := done_file;
     Args.log := None; Args.verbose := false |}.

(** A directory as in [test_dir], with more in it: export files at two
    levels, a file that is no export, and an export file elsewhere. *)
Definition test_dir : gmap Path node :=
  list_to_map
    [ (["test_dir"], Dir);
      (["test_dir"; "b.enex"], File "");
      (["test_dir"; "a"], Dir);
      (["test_dir"; "a"; "z.enex"], File "");
      (["test_dir"; "a-b.enex"], File "");
      (["test_dir"; "notes.txt"], File "");
      (["other"], Dir);
      (["other"; "c.enex"], File "") ].

(** ** Further notions *)


(** The lines of a list of hashes with the line ends of Windows. *)
Fixpoint lines_crlf (hs : list string) : string :=
  match hs with
  | [] => ""
  | h :: hs' =>
      h +:+ String PyStr.CR (String PyStr.LF EmptyString) +:+ lines_crlf hs'
  end.


(** Besides [ledger_rel]: a note is only handed to [parse_note] when its
    hash is not done. *)
Definition parse_rel : rel := λ s ok t s',
  ledger_rel s ok t s'
  ∧ (ledger_free s → ∀ n, ParseNote n ∈ t → note_hash n ∉ hashes (done s)).





(** The note an event hands to [parse_note] or to [upload_note]. *)
Definition note_of (e : event) : option Note :=
  match e with
  | ParseNote n | UploadNote n _ => Some n
  | _ => None
  end.

(** An event that handles a note handles one of [notes], as
    [append_custom_tag] leaves it. *)
Definition from_notes (env : Env) (self : EnexUploader env)
    (notes : list Note) (e : event) : Prop :=
  ∀ n, note_of e = Some n →
       ∃ n0, n0 ∈ notes ∧ n = append_custom_tag env self n0.

(** Every note a computation handles comes from an export file it read. *)
Definition provenance_rel (env : Env) (self : EnexUploader env) : rel :=
  λ _ _ t _,
    ∀ e n, e ∈ t → note_of e = Some n →
           ∃ f n0, f ∈ processed_files t ∧ n0 ∈ iter_notes env f
                   ∧ n = append_custom_tag env self n0.

(** Whether the note, as [parse_note] gets it, yields at least one block. *)
Definition has_blocks_b (env : Env) (self : EnexUploader env) (n : Note)
  : bool :=
  match parse_note env (append_custom_tag env self n) (mode_webclips env self)
          (add_meta env self) (add_pdf_preview env self)
          (condense_lines env self) (condense_lines_sparse env self) with
  | Some (_ :: _) => true
  | _ => false
  end.

(** The hashes to upload for [notes], in order, when the hashes [seen] are
    done: the hash of every note with blocks, the first time it occurs,
    unless it is done. *)
Fixpoint to_upload (blocks : Note → bool) (seen : gset string)
    (notes : list Note) : list string :=
  match notes with
  | [] => []
  | n :: rest =>
      if bool_decide (note_hash n ∈ seen) then to_upload blocks seen rest
      else if blocks n then
        note_hash n :: to_upload blocks ({[note_hash n]} ∪ seen) rest
      else to_upload blocks seen rest
  end.

(** The notes of the export files a trace has read, in reading order. *)
Definition notes_read (env : Env) (t : list event) : list Note :=
  concat (iter_notes env <$> processed_files t).

(** Besides [ledger_rel]: once a computation has returned, its uploads are
    those [to_upload] names, in that order. *)
Definition order_rel (env : Env) (self : EnexUploader env) : rel :=
  λ s ok t s',
    ledger_rel s ok t s'
    ∧ (ledger_free s → ok = true → import_root env self ≠ None →
       uploaded t
       = to_upload (has_blocks_b env self) (hashes (done s))
           (notes_read env t)).

(** The notebook an event looks up: how, and under which title. *)
Definition lookup_of (e : event) : option (Mode * string) :=
  match e with
  | GetNotebookDatabase notebook_title => Some (DB, notebook_title)
  | GetNotebookPage notebook_title => Some (PAGE, notebook_title)
  | _ => None
  end.

(** The notebook lookups of a trace, in order. *)
Definition lookups (t : list event) : list (Mode * string) :=
  omap lookup_of t.

(** The events of the loop over the notes of an export file. *)
Definition is_note_event (e : event) : bool :=
  match e with
  | Log _ _ | ParseNote _ | UploadNote _ _ | FileAppend _ _ => true
  | _ => false
  end.

(** With an import root, every lookup is of the uploader's mode, and once a
    computation has returned there is one for each export file read, under
    the stem of its name; without one there is none. *)
Definition lookup_rel (env : Env) (self : EnexUploader env) : rel :=
  λ _ ok t _,
    match import_root env self with
    | None => lookups t = []
    | Some _ =>
        Forall (λ l, l.1 = mode env self) (lookups t)
        ∧ (ok = true →
           lookups t
           = (λ f, (mode env self, PyPath.stem f)) <$> processed_files t)
    end.

(** * Properties *)

(** ** Strings and lines *)

Section Lines.

Import PyStr.

Lemma append_cons (x : ascii) (a b : string) :
  String x a +:+ b = String x (a +:+ b).
Proof. reflexivity. Qed.

Lemma append_nil (b : string) : "" +:+ b = b.
Proof. reflexivity. Qed.

Lemma append_assoc (a b c : string) : (a +:+ b) +:+ c = a +:+ (b +:+ c).
Proof.
  induction a as [|x a IH]; [done|]. by rewrite !append_cons, IH.
Qed.

Lemma append_empty_r (a : string) : a +:+ "" = a.
Proof.
  induction a as [|x a IH]; [done|]. by rewrite append_cons, IH.
Qed.

Lemma length_lstrip (s : string) : String.length (lstrip s) ≤ String.length s.
Proof.
  induction s as [|c s IH]; simpl; [lia|].
  destruct (isspace c); simpl; lia.
Qed.

Lemma length_rstrip (s : string) : String.length (rstrip s) ≤ String.length s.
Proof.
  induction s as [|c s IH]; simpl; [lia|].
  destruct (rstrip s); [destruct (isspace c)|]; simpl in *; lia.
Qed.

(** A string that [strip] leaves alone starts with no blank. *)
Lemma strip_fixed_lstrip (s : string) : strip s = s → lstrip s = s.
Proof.
  destruct s as [|c s]; [done|].
  unfold strip. simpl. destruct (isspace c); [|done].
  intros E. exfalso.
  pose proof (length_rstrip (lstrip s)) as H1.
  pose proof (length_lstrip s) as H2.
  rewrite E in H1. simpl in H1. lia.
Qed.

Lemma rstrip_blank_end (s : string) (c : ascii) :
  isspace c = true → rstrip (s +:+ String c "") = rstrip s.
Proof.
  intros Hc. induction s as [|x s IH].
  - rewrite append_nil. simpl. by rewrite Hc.
  - rewrite append_cons. simpl. by rewrite IH.
Qed.

Lemma strip_line (h : string) : strip h = h → strip (DoneFile.line h) = h.
Proof.
  intros E. pose proof (strip_fixed_lstrip h E) as El.
  unfold DoneFile.line. destruct h as [|c h]; [done|].
  unfold strip in *. simpl in El. rewrite append_cons. simpl lstrip.
  destruct (isspace c) eqn:Hc.
  - exfalso. pose proof (length_lstrip h) as H. rewrite El in H. simpl in H. lia.
  - rewrite <- append_cons, rstrip_blank_end by done.
    simpl in E. by rewrite Hc in E.
Qed.

Lemma readlines_line (h rest : string) :
  has_linebreak h = false →
  readlines (universal_newlines (DoneFile.line h +:+ rest))
  = DoneFile.line h :: readlines (universal_newlines rest).
Proof.
  unfold DoneFile.line. induction h as [|c h IH]; intros Hh.
  - done.
  - simpl in Hh. apply orb_false_elim in Hh as [Hc Hh].
    apply orb_false_elim in Hc as [Hlf Hcr].
    rewrite !append_cons. simpl. rewrite Hcr. simpl. rewrite Hlf.
    by rewrite IH.
Qed.

End Lines.

(** ** The done file on its own *)

Module DoneFileFacts.

Import DoneFile.

Lemma lines_app (a b : list string) : lines (a ++ b) = lines a +:+ lines b.
Proof.
  induction a as [|h a IH]; [done|].
  change (lines ((h :: a) ++ b)) with (line h +:+ lines (a ++ b)).
  rewrite IH. symmetry. apply append_assoc.
Qed.

Lemma load_lines (hs : list string) :
  Forall (λ h, clean h = true) hs → load (lines hs) = list_to_set hs.
Proof.
  unfold load. induction 1 as [|h hs Hh _ IH]; [done|].
  unfold clean in Hh. apply andb_prop in Hh as [H1 H2].
  apply negb_true_iff in H1. apply bool_decide_eq_true in H2.
  simpl lines. rewrite readlines_line by done.
  rewrite fmap_cons, strip_line by done. simpl. by rewrite IH.
Qed.


Lemma append_not_dir (fs : gmap Path node) (p : Path) (text : string) :
  fs !! p ≠ Some Dir →
  append fs p text = Ok (<[p := File (text_at fs p +:+ text)]> fs).
Proof.
  unfold append, text_at. destruct (fs !! p) as [[old|]|]; done.
Qed.



End DoneFileFacts.






(** ** The retry loop *)

Section RetryLoop.

Context (env : Env).

Lemma bind_eq {A B : Type} (m : M A) (k : A → M B) (s : state) :
  (m ≫= k) s
  = match m s with
    | (Ok a, s1, t1) => let '(r, s2, t2) := k a s1 in (r, s2, t1 ++ t2)
    | (Raise e, s1, t1) => (Raise e, s1, t1)
    end.
Proof. reflexivity. Qed.

Lemma _upload_note_attempts_cons (attempt : nat) (rest : list nat)
    (notebook_root : Root env) (note : Note) (note_blocks : list (Block env))
    (s : state) :
  _upload_note_attempts env (attempt :: rest) notebook_root note note_blocks s
  = if upload_note_fails env (upload_calls s) then
      if attempt =? 4 then
        (Raise NoteUploadFailException, called s, [UploadNote note false])
      else
        let '(r, s2, t2) :=
          _upload_note_attempts env rest notebook_root note note_blocks
            (called s) in
        (r, s2, UploadNote note false :: Log WARNING (retry_message note) :: t2)
    else (Ok tt, called s, [UploadNote note true]).
Proof.
  cbn [_upload_note_attempts]. rewrite bind_eq.
  unfold except_NoteUploadFail, upload_note.
  destruct (upload_note_fails env (upload_calls s)); [|reflexivity].
  destruct (attempt =? 4); [reflexivity|].
  rewrite bind_eq. unfold logger, emit. fold (called s).
  destruct (_upload_note_attempts env rest notebook_root note note_blocks
              (called s)) as [[r s2] t2].
  reflexivity.
Qed.

(** What [_upload_note] does, told by the number [k] of calls that fail
    before the first one that succeeds: fewer than five, and it returns after
    [k + 1] calls; five, and the fifth failure is raised again. *)
Lemma _upload_note_eq (notebook_root : Root env) (note : Note)
    (note_blocks : list (Block env)) (s : state) :
  let k := leading_failures (upload_note_fails env) (upload_calls s) 5 in
  _upload_note env notebook_root note note_blocks s
  = if k <? 5 then
      (Ok tt,
       {| fs := fs s; done := done s; upload_calls := S k + upload_calls s |},
       retries note (retry_message note) k ++ [UploadNote note true])
    else
      (Raise NoteUploadFailException,
       {| fs := fs s; done := done s; upload_calls := 5 + upload_calls s |},
       retries note (retry_message note) 4 ++ [UploadNote note false]).
Proof.
  unfold _upload_note. simpl seq. unfold leading_failures.
  rewrite !_upload_note_attempts_cons. unfold called. simpl.
  generalize (upload_note_fails env (upload_calls s)) as b0.
  generalize (upload_note_fails env (S (upload_calls s))) as b1.
  generalize (upload_note_fails env (S (S (upload_calls s)))) as b2.
  generalize (upload_note_fails env (S (S (S (upload_calls s))))) as b3.
  generalize (upload_note_fails env (S (S (S (S (upload_calls s)))))) as b4.
  intros [] [] [] [] []; reflexivity.
Qed.

Lemma leading_failures_le (fails : nat → bool) (c n : nat) :
  leading_failures fails c n ≤ n.
Proof.
  revert c. induction n as [|n IH]; intros c; simpl; [lia|].
  destruct (fails c); [|lia]. specialize (IH (S c)). lia.
Qed.

Lemma count_app (f : event → bool) (a b : list event) :
  count f (a ++ b) = count f a + count f b.
Proof. unfold count. by rewrite filter_app, length_app. Qed.

Lemma count_retries (note : Note) (msg : string) (k : nat) :
  count is_upload_attempt (retries note msg k) = k
  ∧ count is_failed_attempt (retries note msg k) = k
  ∧ count is_warning (retries note msg k) = k.
Proof.
  induction k as [|k (IH1 & IH2 & IH3)]; [done|].
  unfold count in *. simpl retries.
  rewrite !filter_cons. simpl. rewrite IH1, IH2, IH3. done.
Qed.

End RetryLoop.

(** C1. The code has no retry setting: the loop of [_upload_note] runs at most
    five times. When the first [k] calls fail and [k] is below five, exactly
    [k + 1] attempts are made and the upload succeeds; when five fail, exactly
    five attempts are made and the failure is raised. So in the run of
    [test_upload_fail_retry_infinite] (ten failures, then a success) the
    fifth failure ends the run, where the claim asks for eleven attempts;
    and no option of the schema is, or starts like, [--retry]. *)
Theorem retry_bound_is_fixed_at_five :
  (∀ env notebook_root note note_blocks s,
     let k := leading_failures (upload_note_fails env) (upload_calls s) 5 in
     let x := _upload_note env notebook_root note note_blocks s in
     k ≤ 5
     ∧ outcome x
       = (if k <? 5 then Ok tt else Raise NoteUploadFailException)
     ∧ count is_upload_attempt (trace x) = (if k <? 5 then S k else 5))
  ∧ options_matching "--retry" = []
  ∧ (let x := run (mock_api [fake_note "fake_hash"] (λ n, n <? 10))
                (default_args (Some "fake_token") None [["fake.enex"]]) ∅ in
     outcome x = Raise NoteUploadFailException
     ∧ count is_upload_attempt (trace x) = 5).
Proof.
  split; [|split; [reflexivity | split; vm_compute; reflexivity]].
  intros env notebook_root note note_blocks s k x.
  pose proof (leading_failures_le (upload_note_fails env) (upload_calls s) 5)
    as Hk. fold k in Hk.
  split; [done|]. subst x. rewrite _upload_note_eq. fold k.
  destruct (k <? 5) eqn:E; unfold outcome, trace; cbn [fst snd];
    (split; [reflexivity|]); rewrite count_app;
    rewrite (proj1 (count_retries _ _ _)); unfold count; simpl; lia.
Qed.

(** C2. The code has no skip-failed setting: the failure [_upload_note]
    raises goes through [EnexUploader.upload] and [cli] and ends the run. In
    the run of [test_upload_skip], with a note and a notebook to follow, five
    attempts are made, the run raises, the next note is not parsed, the next
    notebook is not opened and the done file is not written; and no option
    of the schema is, or starts like, [--skip-failed]. *)
Theorem failed_upload_ends_the_run :
  options_matching "--skip-failed" = []
  ∧ (let x := run (mock_api [fake_note "fake_hash"; fake_note "next_hash"]
                     (λ _, true))
                (default_args (Some "fake_token") (Some ["done.txt"])
                   [["fake.enex"]; ["next.enex"]]) ∅ in
     outcome x = Raise NoteUploadFailException
     ∧ count is_upload_attempt (trace x) = 5
     ∧ (ParseNote (fake_note "next_hash") ∉ trace x)
     ∧ (IterNotes ["next.enex"] ∉ trace x)
     ∧ fs (final x) = ∅
     ∧ hashes (done (final x)) = ∅).
Proof.
  split; [reflexivity|]. cbv zeta.
  split; [vm_compute; reflexivity|]. split; [vm_compute; reflexivity|].
  split; [|split; [|split; vm_compute; reflexivity]].
  - apply (bool_decide_unpack _). vm_compute. exact I.
  - apply (bool_decide_unpack _). vm_compute. exact I.
Qed.

(** C7, as stated, fails: when all five attempts fail, four warnings are
    logged, one fewer than the failed attempts. *)
Lemma fifth_failure_logs_no_warning :
  let x := _upload_note (mock_api [] (λ _, true)) tt (fake_note "fake_hash")
             [tt] {| fs := ∅; done := InSet ∅; upload_calls := 0 |} in
  outcome x = Raise NoteUploadFailException
  ∧ count is_failed_attempt (trace x) = 5
  ∧ count is_warning (trace x) = 4
  ∧ count is_warning (trace x) ≠ count is_failed_attempt (trace x).
Proof. cbv zeta. split_and!; [reflexivity.. | vm_compute; lia]. Qed.

(** C7, amended. Every failed attempt that is followed by another attempt
    logs one warning before that attempt; a fifth failed attempt is raised
    with no warning. The trace of [_upload_note] is [k] times a failed
    attempt and its warning, with [k] at most four, and then one last
    attempt: when it succeeds the warnings are as many as the failed
    attempts, when it fails there are four warnings for five failed
    attempts. *)
Theorem warning_before_each_retry (env : Env) (notebook_root : Root env)
    (note : Note) (note_blocks : list (Block env)) (s : state) :
  let x := _upload_note env notebook_root note note_blocks s in
  ∃ (k : nat) (ok : bool),
    k ≤ 4
    ∧ trace x
      = retries note (retry_message note) k ++ [UploadNote note ok]
    ∧ outcome x = (if ok then Ok tt else Raise NoteUploadFailException)
    ∧ count is_warning (trace x) = k
    ∧ count is_failed_attempt (trace x) = (if ok then k else 5)
    ∧ (if ok then True else k = 4).
Proof.
  intros x. subst x. rewrite _upload_note_eq.
  pose proof (leading_failures_le (upload_note_fails env) (upload_calls s) 5)
    as Hk.
  set (k := leading_failures (upload_note_fails env) (upload_calls s) 5) in *.
  destruct (k <? 5) eqn:E.
  - apply Nat.ltb_lt in E. exists k, true. unfold outcome, trace. simpl.
    rewrite !count_app.
    destruct (count_retries note (retry_message note) k) as (_ & H2 & H3).
    rewrite H2, H3. unfold count. simpl. split_and!; try done; lia.
  - exists 4, false. unfold outcome, trace. simpl.
    split_and!; try done.
Qed.

(** ** Sizes *)

(** C4, as stated, fails: 2^40 bytes are one terabyte, not 1024. *)
Lemma sizeof_fmt_of_one_terabyte :
  _sizeof_fmt (2 ^ 40) = "1.0TB" ∧ _sizeof_fmt (2 ^ 40) ≠ "1024.0TB".
Proof. split; [vm_compute; reflexivity | vm_compute; discriminate]. Qed.

(** C4, amended. [_sizeof_fmt] maps 0 to "0B", 100 to "100B", 2000 to
    "2.0KB" and 1024^5 = 2^50 to "1024.0TB". Below 1024 the number of bytes
    is printed as it is; from 1024 on the size is divided by the power of
    1024 of its unit, the largest of KB, MB, GB, TB that it reaches, and
    printed with one digit after the point. *)
Theorem sizeof_fmt_binary_units :
  _sizeof_fmt 0 = "0B"
  ∧ _sizeof_fmt 100 = "100B"
  ∧ _sizeof_fmt 2000 = "2.0KB"
  ∧ _sizeof_fmt (1024 * 1024 * 1024 * 1024 * 1024) = "1024.0TB"
  ∧ (∀ num, (num < 1024)%N → _sizeof_fmt num = pretty num +:+ "B")
  ∧ (∀ num, (1024 ≤ num)%N →
       ∃ (k : N) (unit : string),
         (k, unit) ∈ [(1, "KB"); (2, "MB"); (3, "GB"); (4, "TB")]%N
         ∧ (1024 ^ k ≤ num)%N
         ∧ (num < 1024 ^ (k + 1) ∨ k = 4)%N
         ∧ _sizeof_fmt num = one_decimal num (1024 ^ k) +:+ unit)
  ∧ (∀ n d, ∃ whole digit : N,
       (digit < 10)%N
       ∧ one_decimal n d = pretty whole +:+ "." +:+ pretty digit).
Proof.
  split; [vm_compute; reflexivity|].
  split; [vm_compute; reflexivity|].
  split; [vm_compute; reflexivity|].
  split; [vm_compute; reflexivity|].
  split_and!.
  - intros num H. unfold _sizeof_fmt.
    apply N.ltb_lt in H. by rewrite H.
  - intros num H. unfold _sizeof_fmt.
    assert (E : (num <? 1024)%N = false) by (apply N.ltb_ge; lia).
    rewrite E. simpl _sizeof_fmt_units.
    destruct (num <? 1024 * 1024)%N eqn:E1.
    { apply N.ltb_lt in E1. exists 1%N, "KB".
      split_and!; [set_solver | lia | left; lia | done]. }
    apply N.ltb_ge in E1.
    destruct (num <? 1024 * (1024 * 1024))%N eqn:E2.
    { apply N.ltb_lt in E2. exists 2%N, "MB".
      split_and!; [set_solver | lia | left; lia | done]. }
    apply N.ltb_ge in E2.
    destruct (num <? 1024 * (1024 * (1024 * 1024)))%N eqn:E3.
    { apply N.ltb_lt in E3. exists 3%N, "GB".
      split_and!; [set_solver | lia | left; lia | done]. }
    apply N.ltb_ge in E3. exists 4%N, "TB".
    split_and!; [set_solver | lia | right; done | done].
  - intros n d. unfold one_decimal.
    eexists _, _. split; [|reflexivity].
    apply N.mod_lt. lia.
Qed.

(** ** Following a relation through a run *)

Section Composition.

Context (env : Env).

Lemma holds_ret {A : Type} (R : rel) (a : A) (s : state) :
  composable R → holds R (mret a : M A) s.
Proof. intros HR. apply (comp_nil R HR). Qed.

Lemma holds_raise {A : Type} (R : rel) (e : exn) (s : state) :
  composable R → holds R (raise e : M A) s.
Proof. intros HR. apply (comp_nil R HR). Qed.

Lemma holds_bind {A B : Type} (R : rel) (m : M A) (k : A → M B) (s : state) :
  composable R →
  holds R m s →
  (∀ a s1 t1, m s = (Ok a, s1, t1) → holds R (k a) s1) →
  holds R (m ≫= k) s.
Proof.
  intros HR Hm Hk. unfold holds in *. rewrite bind_eq.
  destruct (m s) as [[[a|e] s1] t1] eqn:E; [|exact Hm].
  specialize (Hk a s1 t1 eq_refl).
  destruct (k a s1) as [[r s2] t2]. unfold outcome, trace, final in *.
  simpl in *. eapply (comp_app R HR); eassumption.
Qed.

Lemma holds_emit (R : rel) (e : event) (s : state) :
  R s true [e] s → holds R (emit e) s.
Proof. done. Qed.

(** A relation that [upload] keeps is kept by the loops of [cli] over the
    files and over the inputs. *)
Lemma holds_upload_files (R : rel) (self : EnexUploader env) :
  composable R →
  (∀ f s, holds R (upload env self f) s) →
  ∀ files s, holds R (upload_files env self files) s.
Proof.
  intros HR Hup files. induction files as [|f files IH]; intros s.
  - by apply holds_ret.
  - cbn [upload_files]. apply holds_bind; [done | apply Hup |].
    intros _ s1 _ _. apply IH.
Qed.

Lemma holds_cli_inputs (R : rel) (self : EnexUploader env) :
  composable R →
  (∀ msg s, R s true [Log INFO msg] s) →
  (∀ f s, holds R (upload env self f) s) →
  ∀ inputs s, holds R (cli_inputs env self inputs) s.
Proof.
  intros HR Hlog Hup inputs. induction inputs as [|i inputs IH]; intros s.
  - by apply holds_ret.
  - cbn [cli_inputs]. apply holds_bind; [done | apply (comp_nil R HR) |].
    intros files s1 t1 E. apply holds_bind; [done | | intros; apply IH].
    destruct (is_dir files i).
    + apply holds_bind; [done | apply holds_emit, Hlog |].
      intros. by apply holds_upload_files.
    + apply Hup.
Qed.

End Composition.

(** ** The driver, equation by equation *)

Section Equations.

Context (env : Env).

Lemma prepend_nil {A : Type} (x : result A * state * list event) :
  prepend [] x = x.
Proof. by destruct x as [[r s] t]. Qed.

Lemma bind_prepend {A B : Type} (m : M A) (k : A → M B) (s : state) :
  (m ≫= k) s
  = match m s with
    | (Ok a, s1, t1) => prepend t1 (k a s1)
    | (Raise e, s1, t1) => (Raise e, s1, t1)
    end.
Proof.
  rewrite bind_eq. destruct (m s) as [[[a|e] s1] t1]; [|done].
  by destruct (k a s1) as [[r s2] t2].
Qed.

Lemma prepend_prepend {A : Type} (t0 t1 : list event)
    (x : result A * state * list event) :
  prepend t0 (prepend t1 x) = prepend (t0 ++ t1) x.
Proof.
  destruct x as [[r s] t]. unfold prepend, outcome, final, trace. simpl.
  by rewrite app_assoc.
Qed.

Lemma _parse_note_eq (self : EnexUploader env) (note : Note) (s : state) :
  _parse_note env self note s
  = match parse_note env note (mode_webclips env self) (add_meta env self)
            (add_pdf_preview env self) (condense_lines env self)
            (condense_lines_sparse env self) with
    | Some note_blocks => (Ok note_blocks, s, [ParseNote note])
    | None =>
        (Raise ParseNoteException, s,
         [ParseNote note;
          Log ERROR ("Unhandled exception while parsing note '"
                     +:+ title note +:+ "'!")])
    end.
Proof.
  unfold _parse_note. rewrite bind_prepend. unfold emit.
  destruct (parse_note env note _ _ _ _ _); [reflexivity|].
  rewrite bind_prepend. reflexivity.
Qed.

Lemma _get_notebook_root_eq (self : EnexUploader env) (notebook_title : string)
    (s : state) :
  _get_notebook_root env self notebook_title s
  = match import_root env self with
    | None => (Ok None, s, [])
    | Some root =>
        match mode env self with
        | DB =>
            (match get_notebook_database env root notebook_title with
             | Some r => Ok (Some r)
             | None => Raise NoteUploadFailException
             end, s, [GetNotebookDatabase notebook_title])
        | PAGE =>
            (match get_notebook_page env root notebook_title with
             | Some r => Ok (Some r)
             | None => Raise NoteUploadFailException
             end, s, [GetNotebookPage notebook_title])
        end
    end.
Proof.
  unfold _get_notebook_root. destruct (import_root env self); [|done].
  destruct (mode env self); rewrite bind_prepend; unfold emit.
  - by destruct (get_notebook_database env _ _).
  - by destruct (get_notebook_page env _ _).
Qed.

(** One turn of the loop over the notes of an export file. *)
Lemma upload_notes_cons (self : EnexUploader env)
    (notebook_root : option (Root env)) (note : Note) (rest : list Note)
    (s : state) :
  upload_notes env self notebook_root (note :: rest) s
  = if done_contains (done s) (note_hash note) then
      prepend [Log DEBUG ("Skipping note '" +:+ title note
                          +:+ "' (already uploaded)")]
        (upload_notes env self notebook_root rest s)
    else
      let note' := append_custom_tag env self note in
      match _parse_note env self note' s with
      | (Raise e, s1, t1) => (Raise e, s1, t1)
      | (Ok [], s1, t1) =>
          prepend t1 (upload_notes env self notebook_root rest s1)
      | (Ok (b :: bs), s1, t1) =>
          match notebook_root with
          | None => prepend t1 (upload_notes env self notebook_root rest s1)
          | Some r =>
              match _upload_note env r note' (b :: bs) s1 with
              | (Raise e, s2, t2) => (Raise e, s2, t1 ++ t2)
              | (Ok _, s2, t2) =>
                  match done_add (note_hash note') s2 with
                  | (Raise e, s3, t3) => (Raise e, s3, t1 ++ t2 ++ t3)
                  | (Ok _, s3, t3) =>
                      prepend (t1 ++ t2 ++ t3)
                        (upload_notes env self notebook_root rest s3)
                  end
              end
          end
      end.
Proof.
  cbn [upload_notes]. rewrite bind_prepend. unfold get_done at 1.
  rewrite prepend_nil.
  destruct (done_contains (done s) (note_hash note)).
  { rewrite bind_prepend. reflexivity. }
  cbv zeta. rewrite bind_prepend.
  destruct (_parse_note env self (append_custom_tag env self note) s)
    as [[[[|b bs]|e] s1] t1]; try reflexivity.
  destruct notebook_root as [r|]; [|reflexivity].
  rewrite bind_prepend.
  destruct (_upload_note env r _ _ s1) as [[[[]|e] s2] t2]; [|reflexivity].
  rewrite bind_prepend.
  destruct (done_add _ s2) as [[[[]|e] s3] t3].
  - by rewrite !prepend_prepend, app_assoc.
  - unfold prepend, outcome, final, trace. simpl. by rewrite app_assoc.
Qed.

Lemma upload_eq (self : EnexUploader env) (enex_file : Path) (s : state) :
  upload env self enex_file s
  = let msg := "Processing notebook '" +:+ PyPath.stem enex_file +:+ "'..." in
    match _get_notebook_root env self (PyPath.stem enex_file) s with
    | (Ok notebook_root, s1, t1) =>
        prepend (Log INFO msg :: t1 ++ [IterNotes enex_file])
          (upload_notes env self notebook_root (iter_notes env enex_file) s1)
    | (Raise e, s1, t1) => (Raise e, s1, Log INFO msg :: t1)
    end.
Proof.
  unfold upload. rewrite bind_prepend. unfold logger, emit.
  rewrite bind_prepend.
  destruct (_get_notebook_root env self _ s) as [[[root|e] s1] t1].
  - rewrite bind_prepend. rewrite !prepend_prepend. reflexivity.
  - reflexivity.
Qed.

End Equations.

(** ** Uploads and the done file along a run *)

Section Ledger.

Context (env : Env).

Lemma uploaded_app (a b : list event) :
  uploaded (a ++ b) = uploaded a ++ uploaded b.
Proof.
  induction a as [|e a IH]; [done|].
  destruct e as [| | | | | | | |n [] |]; simpl; by rewrite ?IH.
Qed.

Lemma processed_files_app (a b : list event) :
  processed_files (a ++ b) = processed_files a ++ processed_files b.
Proof.
  induction a as [|e a IH]; [done|]. destruct e; simpl; by rewrite ?IH.
Qed.


Lemma uploaded_retries (n : Note) (msg : string) (k : nat) :
  uploaded (retries n msg k) = [].
Proof. induction k as [|k IH]; [done|]. simpl. exact IH. Qed.

Lemma trace_ok_app (p : option Path) (t1 t2 : list event) :
  ∀ pending seen seen',
    trace_ok p pending seen t1 →
    seen' = list_to_set (uploaded t1)
            ∪ (from_option singleton ∅ pending ∪ seen) →
    trace_ok p None seen' t2 →
    trace_ok p pending seen (t1 ++ t2).
Proof.
  induction t1 as [|e t1 IH]; intros pending seen seen' H1 Hs H2.
  - simpl in H1. subst pending. simpl in *.
    replace seen with seen'; [done|]. subst seen'. set_solver.
  - cbn [app trace_ok] in *. destruct pending as [h|].
    + destruct H1 as (q & Hp & He & H1). exists q. split_and!; try done.
      eapply IH; [exact H1 | | exact H2].
      subst seen' e. simpl. set_solver.
    + destruct e as [| | | | | | | |n [] |]; try done;
        try (eapply IH; [exact H1 | | exact H2]; subst seen'; simpl; done).
      * destruct H1 as [Hn H1]. split; [done|]. destruct p as [q|].
        -- eapply IH; [exact H1 | | exact H2]. subst seen'. simpl. set_solver.
        -- eapply IH; [exact H1 | | exact H2]. subst seen'. simpl. set_solver.
      * destruct H1 as [Hn H1]. split; [done|].
        eapply IH; [exact H1 | | exact H2]. subst seen'. simpl. done.
Qed.

Lemma trace_ok_retries (p : option Path) (seen : gset string) (n : Note)
    (msg : string) (k : nat) (rest : list event) :
  note_hash n ∉ seen →
  trace_ok p None seen rest →
  trace_ok p None seen (retries n msg k ++ rest).
Proof.
  intros Hn Hr. induction k as [|k IH]; [done|].
  simpl. split; [done|]. exact IH.
Qed.

Lemma ledger_rel_composable : composable ledger_rel.
Proof.
  split.
  - intros s b Hf. unfold ledger_rel. simpl. split_and!; try done.
    + set_solver.
    + intros p _. by rewrite append_empty_r.
  - intros s t1 s1 b t2 s2 H1 H2 Hf.
    destruct (H1 Hf) as (Hf1 & Hl1 & Hh1 & Ht1 & Hx1 & Ho1).
    destruct (H2 Hf1) as (Hf2 & Hl2 & Hh2 & Ht2 & Hx2 & Ho2).
    rewrite Hl1 in *. split_and!; try done.
    + rewrite Hh2, Hh1, uploaded_app, list_to_set_app_L. set_solver.
    + eapply trace_ok_app; [exact Ht1 | | exact Ht2].
      rewrite Hh1. simpl. set_solver.
    + intros p Hp. rewrite (Hx2 p Hp), (Hx1 p Hp), uploaded_app.
      by rewrite DoneFileFacts.lines_app, append_assoc.
    + intros q Hq. by rewrite (Ho2 q Hq), (Ho1 q Hq).
Qed.

(** Events that are neither an upload nor a write leave all of it alone. *)
Lemma ledger_rel_one (e : event) (s : state) (b : bool) :
  match e with UploadNote _ _ | FileAppend _ _ => False | _ => True end →
  ledger_rel s b [e] s.
Proof.
  intros He Hf. assert (Hu : uploaded [e] = []) by (by destruct e).
  rewrite Hu. split_and!; try done.
  - set_solver.
  - by destruct e.
  - intros p _. by rewrite append_empty_r.
Qed.

Lemma ledger_rel_events (t : list event) (s : state) (b : bool) :
  Forall (λ e, match e with
               | UploadNote _ _ | FileAppend _ _ => False
               | _ => True
               end) t →
  ledger_rel s b t s.
Proof.
  induction 1 as [|e t He _ IH].
  - apply (comp_nil _ ledger_rel_composable).
  - change (e :: t) with ([e] ++ t).
    eapply (comp_app _ ledger_rel_composable); [|exact IH].
    by apply ledger_rel_one.
Qed.

Lemma done_contains_hashes (d : done_store) (h : string) :
  done_contains d h = bool_decide (h ∈ hashes d).
Proof. by destruct d. Qed.

(** A run of the retry loop that gives up. *)
Lemma ledger_rel_gave_up (n : Note) (msg : string) (s : state) (b : bool) :
  note_hash n ∉ hashes (done s) →
  ledger_rel s b (retries n msg 4 ++ [UploadNote n false]) (called_times 5 s).
Proof.
  intros Hn Hf. rewrite uploaded_app, uploaded_retries. simpl.
  split_and!; try done.
  - set_solver.
  - intros p _. by rewrite append_empty_r.
Qed.

(** A run of the retry loop that succeeds, and the [add] that follows. *)
Lemma ledger_rel_uploaded (n : Note) (msg : string) (k : nat) (s : state) :
  note_hash n ∉ hashes (done s) →
  ledger_free s →
  ∃ s3 t3,
    done_add (note_hash n) (called_times (S k) s) = (Ok tt, s3, t3)
    ∧ ledger_rel s true (retries n msg k ++ [UploadNote n true] ++ t3) s3.
Proof.
  intros Hn Hf. unfold done_add. cbn [done fs upload_calls called_times].
  destruct (done s) as [f|hs] eqn:Ed.
  - assert (Hd : fs s !! DoneFile.path f ≠ Some Dir).
    { apply Hf. by rewrite Ed. }
    unfold DoneFile.add. rewrite DoneFileFacts.append_not_dir by done.
    eexists _, _. split; [reflexivity|]. intros _.
    rewrite Ed. cbn [ledger hashes done fs] in *.
    rewrite uploaded_app, uploaded_retries. simpl uploaded.
    split_and!.
    + intros p Hp. simpl in Hp. simplify_eq. simpl.
      by rewrite lookup_insert_eq.
    + done.
    + simpl. set_solver.
    + apply trace_ok_retries; [done|]. simpl. split; [done|].
      exists (DoneFile.path f). split_and!; done.
    + intros p Hp. simplify_eq. unfold DoneFile.text_at at 1.
      simpl. rewrite lookup_insert_eq. simpl.
      by rewrite append_empty_r.
    + intros q Hq. simpl. rewrite lookup_insert_ne; [done|].
      intros E. apply Hq. by rewrite E.
  - eexists _, _. split; [reflexivity|]. intros _.
    rewrite Ed. cbn [ledger hashes done fs] in *.
    rewrite uploaded_app, uploaded_retries. simpl uploaded.
    split_and!; try done.
    + simpl. set_solver.
    + apply trace_ok_retries; [done|]. simpl. done.
Qed.

Lemma rel_prepend {A : Type} (R : rel) (s s1 : state) (t0 : list event)
    (x : result A * state * list event) :
  composable R →
  R s true t0 s1 →
  R s1 (is_ok (outcome x)) (trace x) (final x) →
  R s (is_ok (outcome (prepend t0 x))) (trace (prepend t0 x))
    (final (prepend t0 x)).
Proof.
  intros HR H0 Hx. destruct x as [[r s2] t]. unfold prepend, outcome, trace,
    final in *. simpl in *. eapply (comp_app R HR); eassumption.
Qed.

Lemma ledger_rel_assume (s s' : state) (b : bool) (t : list event) :
  (ledger_free s → ledger_rel s b t s') → ledger_rel s b t s'.
Proof. intros H Hf. by apply H. Qed.

Lemma note_hash_append_custom_tag (self : EnexUploader env) (n : Note) :
  note_hash (append_custom_tag env self n) = note_hash n.
Proof.
  unfold append_custom_tag. destruct (custom_tag env self); [|done].
  by destruct (_ && _).
Qed.

Lemma upload_notes_ledger (self : EnexUploader env)
    (notebook_root : option (Root env)) (notes : list Note) (s : state) :
  holds ledger_rel (upload_notes env self notebook_root notes) s.
Proof.
  pose proof ledger_rel_composable as HR.
  revert s. induction notes as [|note rest IH]; intros s.
  { by apply holds_ret. }
  unfold holds in *. rewrite upload_notes_cons.
  rewrite done_contains_hashes.
  destruct (bool_decide (note_hash note ∈ hashes (done s))) eqn:Ec.
  { apply (rel_prepend _ s s); [done | by apply ledger_rel_one | apply IH]. }
  apply bool_decide_eq_false in Ec. cbv zeta. rewrite _parse_note_eq.
  set (note' := append_custom_tag env self note).
  assert (Hn : note_hash note' ∉ hashes (done s)).
  { unfold note'. by rewrite note_hash_append_custom_tag. }
  destruct (parse_note env note' _ _ _ _ _) as [[|b bs]|].
  - apply (rel_prepend _ s s); [done | by apply ledger_rel_one | apply IH].
  - destruct notebook_root as [r|];
      [|apply (rel_prepend _ s s); [done | by apply ledger_rel_one | apply IH]].
    rewrite _upload_note_eq.
    set (k := leading_failures _ _ 5). destruct (k <? 5).
    + fold (called_times (S k) s). apply ledger_rel_assume. intros Hf.
      destruct (ledger_rel_uploaded note' (retry_message note') k s Hn Hf)
        as (s3 & t3 & E & H3).
      rewrite E. apply (rel_prepend _ s s3); [done | | apply IH].
      change ([ParseNote note'] ++ (retries note' (retry_message note') k
                ++ [UploadNote note' true]) ++ t3)
        with ([ParseNote note'] ++ ((retries note' (retry_message note') k
                ++ [UploadNote note' true]) ++ t3)).
      eapply (comp_app _ HR); [by apply ledger_rel_one|].
      by rewrite <- app_assoc.
    + unfold outcome, trace, final. simpl fst. simpl snd.
      change (ledger_rel s false
                ([ParseNote note'] ++ (retries note' (retry_message note') 4
                   ++ [UploadNote note' false])) (called_times 5 s)).
      eapply (comp_app _ HR); [by apply ledger_rel_one|].
      by apply ledger_rel_gave_up.
  - apply ledger_rel_events. by repeat constructor.
Qed.

Lemma upload_ledger (self : EnexUploader env) (enex_file : Path) (s : state) :
  holds ledger_rel (upload env self enex_file) s.
Proof.
  pose proof ledger_rel_composable as HR.
  unfold holds. rewrite upload_eq, _get_notebook_root_eq. cbv zeta.
  destruct (import_root env self) as [root|].
  - destruct (mode env self).
    + destruct (get_notebook_database env root _).
      * apply (rel_prepend _ s s); [done | | apply upload_notes_ledger].
        apply ledger_rel_events. by repeat constructor.
      * apply ledger_rel_events. by repeat constructor.
    + destruct (get_notebook_page env root _).
      * apply (rel_prepend _ s s); [done | | apply upload_notes_ledger].
        apply ledger_rel_events. by repeat constructor.
      * apply ledger_rel_events. by repeat constructor.
  - apply (rel_prepend _ s s); [done | | apply upload_notes_ledger].
    apply ledger_rel_events. by repeat constructor.
Qed.

Lemma cli_inputs_ledger (self : EnexUploader env) (inputs : list Path)
    (s : state) :
  holds ledger_rel (cli_inputs env self inputs) s.
Proof.
  apply holds_cli_inputs.
  - apply ledger_rel_composable.
  - intros msg s'. by apply ledger_rel_one.
  - apply upload_ledger.
Qed.

End Ledger.

(** ** From the arguments to the inputs *)

Section Prelude.

Context (env : Env).

Lemma get_root_eq (tok : option string) (name : string) (s : state) :
  get_root env tok name s
  = if truthy tok then
      match get_notion_client env (default "" tok) with
      | Some client =>
          (Ok (Some (get_import_root env client name)), s,
           [GetNotionClient (default "" tok); GetImportRoot name])
      | None =>
          (Raise (SystemExit 1), s,
           [GetNotionClient (default "" tok);
            Log ERROR "Invalid token provided!"])
      end
    else
      (Ok None, s,
       [Log WARNING
          "No token provided, dry run mode. Nothing will be uploaded to Notion!"]).
Proof.
  unfold get_root. destruct tok as [[|c t]|]; simpl.
  - rewrite bind_prepend. reflexivity.
  - rewrite bind_prepend. unfold emit.
    destruct (get_notion_client env (String c t)); rewrite bind_prepend;
      reflexivity.
  - rewrite bind_prepend. reflexivity.
Qed.

Lemma EnexUploader_init_eq (args : Args.t) (root : option (Root env))
    (s : state) :
  EnexUploader_init env root (Args.mode args) (Args.mode_webclips args)
    (Args.done_file args) (Args.add_meta args) (Args.add_pdf_preview args)
    (Args.condense_lines args) (Args.condense_lines_sparse args)
    (Args.tag args) s
  = match Args.done_file args with
    | Some p =>
        if is_dir (fs s) p
        then (Raise IsADirectoryError, s, [])
        else (Ok (uploader_of env args root), ready args s, [])
    | None => (Ok (uploader_of env args root), ready args s, [])
    end.
Proof.
  unfold EnexUploader_init, ready, initial_done, uploader_of.
  destruct (Args.done_file args) as [p|]; [|done].
  unfold DoneFile.init, DoneFile.text_at, is_dir.
  destruct (fs s !! p) as [[text|]|] eqn:E; simpl; try done.
Qed.

Lemma is_dir_false (files : gmap Path node) (p : Path) :
  is_dir files p = false → files !! p ≠ Some Dir.
Proof. unfold is_dir. intros H E. by rewrite E in H. Qed.

(** [cli] either ends before it reaches its inputs, having neither uploaded
    nor written anything, or reaches them with the uploader and the done
    hashes its arguments call for. *)
Lemma cli_cases (args : Args.t) (s : state) :
  (∃ e t, cli env args s = (Raise e, s, t)
          ∧ Forall (λ e, is_prelude e) t
          ∧ (truthy (Args.token args) = false → Forall (λ e, is_local e) t))
  ∨ (∃ root t0,
       cli env args s
       = prepend t0 (cli_inputs env (uploader_of env args root)
                       (Args.enex_input args) (ready args s))
       ∧ Forall (λ e, is_prelude e) t0
       ∧ (∀ p, Args.done_file args = Some p → fs s !! p ≠ Some Dir)
       ∧ (truthy (Args.token args) = false →
            root = None ∧ Forall (λ e, is_local e) t0)
       ∧ (truthy (Args.token args) = true → root ≠ None)).
Proof.
  unfold cli. rewrite bind_prepend.
  assert (Hw : ∃ t1,
    Forall (λ e, is_prelude e) t1 ∧ Forall (λ e, is_local e) t1 ∧
    ((match Args.mode_webclips args with
      | PDF => ensure_wkhtmltopdf env
      | TXT => mret ()
      end) s = (Ok tt, s, t1)
     ∨ ∃ e, (match Args.mode_webclips args with
             | PDF => ensure_wkhtmltopdf env
             | TXT => mret ()
             end) s = (Raise e, s, t1))).
  { destruct (Args.mode_webclips args).
    - exists []. split_and!; [done | done | by left].
    - exists [EnsureWkhtmltopdf]. split_and!; [by repeat constructor..|].
      unfold ensure_wkhtmltopdf. rewrite bind_prepend. unfold emit.
      destruct (has_wkhtmltopdf env); [by left | right; by eexists]. }
  destruct Hw as (t1 & Hp1 & Hl1 & [E1 | [e E1]]); rewrite E1;
    [|left; by eexists _, _].
  rewrite bind_prepend, get_root_eq.
  destruct (truthy (Args.token args)) eqn:Etok.
  - destruct (get_notion_client env _) as [client|].
    + rewrite bind_prepend, EnexUploader_init_eq.
      destruct (Args.done_file args) as [p|] eqn:Edf.
      * destruct (is_dir (fs s) p) eqn:Ed.
        -- left. eexists _, _. unfold prepend, outcome, final, trace. simpl.
           split; [reflexivity|]. rewrite ?app_nil_r.
           split; [|intros; congruence]. apply Forall_app.
           split; [done | by repeat constructor].
        -- right. apply is_dir_false in Ed.
           eexists _, _. rewrite !prepend_prepend. split; [reflexivity|].
           split_and!; try done.
           ++ rewrite ?app_nil_r. apply Forall_app.
              split; [done | by repeat constructor].
           ++ intros p' [= <-]. done.
      * right. eexists _, _. rewrite !prepend_prepend. split; [reflexivity|].
        split_and!; try done.
        rewrite ?app_nil_r. apply Forall_app.
        split; [done | by repeat constructor].
    + left. eexists _, _. unfold prepend, outcome, final, trace. simpl.
      split; [reflexivity|]. split; [|intros; congruence]. apply Forall_app.
      split; [done | by repeat constructor].
  - rewrite bind_prepend, EnexUploader_init_eq.
    destruct (Args.done_file args) as [p|] eqn:Edf.
    + destruct (is_dir (fs s) p) eqn:Ed.
      * left. eexists _, _. unfold prepend, outcome, final, trace. simpl.
        split; [reflexivity|]. rewrite ?app_nil_r.
        split; [|intros _]; apply Forall_app;
          (split; [done | by repeat constructor]).
      * right. apply is_dir_false in Ed.
        eexists None, _. rewrite !prepend_prepend. split; [reflexivity|].
        rewrite ?app_nil_r. split_and!; try done.
        -- apply Forall_app. split; [done | by repeat constructor].
        -- intros p' [= <-]. done.
        -- intros _. split; [done|]. apply Forall_app.
           split; [done | by repeat constructor].
    + right. eexists None, _. rewrite !prepend_prepend. split; [reflexivity|].
      rewrite ?app_nil_r. split_and!; try done.
      -- apply Forall_app. split; [done | by repeat constructor].
      -- intros _. split; [done|]. apply Forall_app.
         split; [done | by repeat constructor].
Qed.

End Prelude.

(** ** What the discipline of a trace gives *)

Section Discipline.



(** Local events in front change nothing. *)
Lemma trace_ok_prelude (p : option Path) (seen : gset string)
    (t0 t : list event) :
  Forall (λ e, is_prelude e) t0 →
  trace_ok p None seen t → trace_ok p None seen (t0 ++ t).
Proof.
  induction 1 as [|e t0 He _ IH]; [done|]. intros Ht.
  destruct e; try done; simpl; by apply IH.
Qed.

Lemma uploaded_prelude (t0 : list event) :
  Forall (λ e, is_prelude e) t0 → uploaded t0 = [].
Proof.
  induction 1 as [|e t0 He _ IH]; [done|]. by destruct e.
Qed.

Lemma processed_files_prelude (t0 : list event) :
  Forall (λ e, is_prelude e) t0 → processed_files t0 = [].
Proof.
  induction 1 as [|e t0 He _ IH]; [done|]. by destruct e.
Qed.



(** An attempt is only made for a hash that is neither done at the start nor
    uploaded earlier in the trace. *)
Lemma trace_ok_attempt_fresh (p : option Path) (pre post : list event)
    (n : Note) (ok : bool) :
  ∀ pending seen,
    trace_ok p pending seen (pre ++ UploadNote n ok :: post) →
    (note_hash n ∉ seen)
    ∧ (note_hash n ∉ uploaded pre)
    ∧ pending ≠ Some (note_hash n).
Proof.
  induction pre as [|e pre IH]; intros pending seen H.
  - simpl in H. destruct pending as [h|].
    { by destruct H as (q & _ & ? & _). }
    split_and!; [|by intros ?%elem_of_nil|done].
    destruct ok; by destruct H.
  - cbn [app trace_ok] in H. destruct pending as [h|].
    + destruct H as (q & _ & -> & H).
      destruct (IH _ _ H) as (H1 & H2 & _). simpl.
      split_and!; [set_solver | done |].
      intros [= ->]. set_solver.
    + destruct e as [| | | | | | | |m [] |]; try done;
        try (destruct (IH _ _ H) as (H1 & H2 & _); by split_and!).
      * destruct H as [Hm H]. destruct p as [q|].
        -- destruct (IH _ _ H) as (H1 & H2 & H3). simpl.
           split_and!; [done | | done].
           intros [E | ?]%elem_of_cons; [|done]. apply H3. by rewrite E.
        -- destruct (IH _ _ H) as (H1 & H2 & H3). simpl.
           split_and!; [set_solver | | done].
           intros [E | ?]%elem_of_cons; [|done]. set_solver.
      * destruct H as [Hm H].
        destruct (IH _ _ H) as (H1 & H2 & H3). by split_and!.
Qed.

(** No hash is uploaded twice, and none that was done at the start. *)
Lemma trace_ok_NoDup (p : option Path) (t : list event) :
  ∀ pending seen,
    trace_ok p pending seen t →
    NoDup (uploaded t)
    ∧ ∀ h, h ∈ uploaded t → (h ∉ seen) ∧ pending ≠ Some h.
Proof.
  induction t as [|e t IH]; intros pending seen H.
  { split; [constructor | by intros h ?%elem_of_nil]. }
  cbn [trace_ok] in H. destruct pending as [h0|].
  - destruct H as (q & _ & -> & H). destruct (IH _ _ H) as [Hnd Hin].
    simpl. split; [done|]. intros h Hh. destruct (Hin h Hh) as [Hs _].
    split; [set_solver|]. intros [= ->]. set_solver.
  - destruct e as [| | | | | | | |m [] |]; try done;
      try (destruct (IH _ _ H) as [Hnd Hin]; split; [done|]; intros h Hh;
           by destruct (Hin h Hh)).
    + destruct H as [Hm H]. destruct p as [q|].
      * destruct (IH _ _ H) as [Hnd Hin]. simpl. split.
        -- constructor; [|done]. intros Hh. by destruct (Hin _ Hh).
        -- intros h [-> | Hh]%elem_of_cons; [done|]. by destruct (Hin h Hh).
      * destruct (IH _ _ H) as [Hnd Hin]. simpl. split.
        -- constructor; [|done]. intros Hh. destruct (Hin _ Hh). set_solver.
        -- intros h [-> | Hh]%elem_of_cons; [done|].
           destruct (Hin h Hh). split; [set_solver | done].
    + destruct H as [Hm H]. destruct (IH _ _ H) as [Hnd Hin].
      split; [done|]. intros h Hh. by destruct (Hin h Hh).
Qed.

Lemma prelude_no_upload (t pre post : list event) (n : Note) (ok : bool) :
  Forall (λ e, is_prelude e) t → t ≠ pre ++ UploadNote n ok :: post.
Proof.
  intros H ->. apply Forall_app in H as [_ H]. by inv H.
Qed.

Lemma prelude_no_write (t pre post : list event) (q : Path) (text : string) :
  Forall (λ e, is_prelude e) t → t ≠ pre ++ FileAppend q text :: post.
Proof.
  intros H ->. apply Forall_app in H as [_ H]. by inv H.
Qed.

(** The uploads and the done file of a whole run. *)
Lemma run_ledger (env : Env) (args : Args.t) (files : gmap Path node) :
  let x := run env args files in
  let seen := hashes (initial_done files (Args.done_file args)) in
  trace_ok (Args.done_file args) None seen (trace x)
  ∧ hashes (done (final x)) ⊆ list_to_set (uploaded (trace x)) ∪ seen
  ∧ (outcome x = Ok tt →
       hashes (done (final x)) = list_to_set (uploaded (trace x)) ∪ seen)
  ∧ (∀ p, Args.done_file args = Some p →
       DoneFile.text_at (fs (final x)) p
       = DoneFile.text_at files p +:+ DoneFile.lines (uploaded (trace x)))
  ∧ (∀ q, Args.done_file args ≠ Some q → fs (final x) !! q = files !! q).
Proof.
  intros x seen. subst x. unfold run.
  set (s0 := {| fs := files; done := InSet ∅; upload_calls := 0 |}).
  destruct (cli_cases env args s0) as [(e & t & E & Ht & _) | (root & t0 & E & Ht0 & Hdir & _)];
    rewrite E.
  - unfold trace, final, outcome. simpl. rewrite (uploaded_prelude t Ht).
    split_and!; try done.
    + rewrite <- (app_nil_r t). by apply trace_ok_prelude.
    + intros p _. by rewrite append_empty_r.
  - pose proof (cli_inputs_ledger env (uploader_of env args root)
                  (Args.enex_input args) (ready args s0)) as H.
    unfold holds, ledger_rel in H.
    destruct H as (_ & Hl & Hh & Hok & Htext & Hother).
    { intros p Hp. simpl in Hp. apply Hdir.
      destruct (Args.done_file args); by simplify_eq/=. }
    assert (El : ledger (done (ready args s0)) = Args.done_file args).
    { simpl. by destruct (Args.done_file args). }
    rewrite El in *.
    destruct (cli_inputs env _ _ (ready args s0)) as [[r s'] t].
    unfold prepend, trace, final, outcome in *. simpl in *.
    rewrite uploaded_app, (uploaded_prelude t0 Ht0). simpl.
    split_and!; try done.
    + by apply trace_ok_prelude.
    + by rewrite Hh.
Qed.

End Discipline.



(** ** Every note with blocks gets done *)

Section Complete.

Context (env : Env).

Lemma trace_prepend {A : Type} (t0 : list event)
    (x : result A * state * list event) :
  trace (prepend t0 x) = t0 ++ trace x.
Proof. reflexivity. Qed.

Lemma outcome_prepend {A : Type} (t0 : list event)
    (x : result A * state * list event) :
  outcome (prepend t0 x) = outcome x.
Proof. reflexivity. Qed.

Lemma final_prepend {A : Type} (t0 : list event)
    (x : result A * state * list event) :
  final (prepend t0 x) = final x.
Proof. reflexivity. Qed.

Lemma processed_files_retries (n : Note) (msg : string) (k : nat) :
  processed_files (retries n msg k) = [].
Proof. induction k as [|k IH]; [done|]. simpl. exact IH. Qed.

Lemma done_add_no_iter (h : string) (s : state) :
  processed_files (trace (done_add h s)) = [].
Proof.
  unfold done_add. destruct (done s) as [f|hs]; [|done].
  by destruct (DoneFile.add f h (fs s)) as [f' [fs'|e]].
Qed.

(** The loop over the notes reads no export file. *)
Lemma upload_notes_no_iter (self : EnexUploader env)
    (notebook_root : option (Root env)) (notes : list Note) (s : state) :
  processed_files (trace (upload_notes env self notebook_root notes s)) = [].
Proof.
  revert s. induction notes as [|note rest IH]; intros s; [done|].
  rewrite upload_notes_cons.
  destruct (done_contains (done s) (note_hash note)).
  { rewrite trace_prepend, processed_files_app. simpl. apply IH. }
  cbv zeta. rewrite _parse_note_eq.
  set (note' := append_custom_tag env self note).
  destruct (parse_note env note' _ _ _ _ _) as [[|b bs]|]; [| |done].
  { rewrite trace_prepend, processed_files_app. simpl. apply IH. }
  destruct notebook_root as [r|];
    [|rewrite trace_prepend, processed_files_app; simpl; apply IH].
  rewrite _upload_note_eq. set (k := leading_failures _ _ 5).
  destruct (k <? 5).
  - pose proof (done_add_no_iter (note_hash note') (called_times (S k) s))
      as Hd. fold (called_times (S k) s).
    destruct (done_add (note_hash note') (called_times (S k) s))
      as [[[[]|e] s3] t3]; unfold trace in Hd; simpl in Hd.
    + rewrite trace_prepend, !processed_files_app, processed_files_retries.
      simpl. rewrite Hd. apply IH.
    + unfold trace. cbn [snd].
      by rewrite !processed_files_app, processed_files_retries, Hd.
  - unfold trace. cbn [snd].
    by rewrite !processed_files_app, processed_files_retries.
Qed.

Lemma upload_notes_grows (self : EnexUploader env)
    (notebook_root : option (Root env)) (notes : list Note) (s : state) :
  ledger_free s →
  ledger_free (final (upload_notes env self notebook_root notes s))
  ∧ hashes (done s)
    ⊆ hashes (done (final (upload_notes env self notebook_root notes s))).
Proof.
  intros Hf.
  destruct (upload_notes_ledger env self notebook_root notes s Hf)
    as (Hf' & _ & Hh & _).
  split; [done|]. rewrite Hh. set_solver.
Qed.

Lemma upload_notes_complete (self : EnexUploader env) (r : Root env)
    (notes : list Note) :
  ∀ s,
    ledger_free s →
    is_ok (outcome (upload_notes env self (Some r) notes s)) = true →
    ∀ n, n ∈ notes → has_blocks env self n →
         note_hash n ∈ hashes (done (final (upload_notes env self (Some r)
                                              notes s))).
Proof.
  induction notes as [|note rest IH]; intros s Hf Hok n Hn Hb.
  { by apply elem_of_nil in Hn. }
  rewrite upload_notes_cons in Hok |- *. rewrite done_contains_hashes in *.
  destruct (bool_decide (note_hash note ∈ hashes (done s))) eqn:Ec.
  { rewrite outcome_prepend in Hok. rewrite final_prepend.
    apply elem_of_cons in Hn as [-> | Hn]; [|by apply IH].
    apply bool_decide_eq_true in Ec.
    by apply (upload_notes_grows self (Some r) rest s Hf). }
  apply bool_decide_eq_false in Ec. cbv zeta in *.
  rewrite _parse_note_eq in *.
  set (note' := append_custom_tag env self note) in *.
  destruct (parse_note env note' _ _ _ _ _) as [[|b bs]|] eqn:Ep; [| |done].
  { rewrite outcome_prepend in Hok. rewrite final_prepend.
    apply elem_of_cons in Hn as [-> | Hn]; [|by apply IH].
    destruct Hb as (b & bs & Hb). fold note' in Hb. congruence. }
  rewrite _upload_note_eq in *. set (k := leading_failures _ _ 5) in *.
  destruct (k <? 5); [|done].
  assert (Hh : note_hash note' ∉ hashes (done s)).
  { unfold note'. by rewrite note_hash_append_custom_tag. }
  destruct (ledger_rel_uploaded note' (retry_message note') k s Hh Hf)
    as (s3 & t3 & E & H3).
  fold (called_times (S k) s) in *. rewrite E in *.
  rewrite outcome_prepend in Hok. rewrite final_prepend.
  destruct (H3 Hf) as (Hf3 & _ & Hh3 & _).
  apply elem_of_cons in Hn as [-> | Hn]; [|by apply IH].
  apply (upload_notes_grows self (Some r) rest s3 Hf3).
  rewrite Hh3, uploaded_app, uploaded_retries. simpl.
  unfold note'. rewrite note_hash_append_custom_tag. set_solver.
Qed.

Lemma complete_rel_composable (self : EnexUploader env) :
  composable (complete_rel env self).
Proof.
  pose proof ledger_rel_composable as HR. split.
  - intros s b. split; [apply (comp_nil _ HR)|].
    intros _ _ _ f n Hf. by apply elem_of_nil in Hf.
  - intros s t1 s1 b t2 s2 [H1 P1] [H2 P2].
    split; [by eapply (comp_app _ HR)|].
    intros Hf -> Hroot f n Hin Hn Hb.
    destruct (H1 Hf) as (Hf1 & _). destruct (H2 Hf1) as (_ & _ & Hh2 & _).
    rewrite processed_files_app in Hin.
    apply elem_of_app in Hin as [Hin | Hin].
    + rewrite Hh2. apply elem_of_union. right. by eapply P1.
    + by eapply P2.
Qed.

Lemma complete_rel_one (self : EnexUploader env) (e : event) (s : state)
    (b : bool) :
  match e with
  | UploadNote _ _ | FileAppend _ _ | IterNotes _ => False
  | _ => True
  end →
  complete_rel env self s b [e] s.
Proof.
  intros He. split; [apply ledger_rel_one; by destruct e|].
  intros _ _ _ f n Hf. destruct e; try done; by apply elem_of_nil in Hf.
Qed.

Lemma upload_complete (self : EnexUploader env) (enex_file : Path)
    (s : state) :
  holds (complete_rel env self) (upload env self enex_file) s.
Proof.
  split; [apply upload_ledger|].
  intros Hf Hok Hroot f n Hin Hn Hb.
  rewrite upload_eq, _get_notebook_root_eq in *. cbv zeta in *.
  destruct (import_root env self) as [root|]; [|done].
  assert (Hcase : ∀ r e0,
    let x := prepend (Log INFO ("Processing notebook '"
                                +:+ PyPath.stem enex_file +:+ "'...")
                      :: [e0] ++ [IterNotes enex_file])
               (upload_notes env self (Some r) (iter_notes env enex_file) s) in
    match e0 with IterNotes _ => False | _ => True end →
    is_ok (outcome x) = true →
    f ∈ processed_files (trace x) →
    note_hash n ∈ hashes (done (final x))).
  { intros r e0 x He0 Hok' Hin'. subst x.
    rewrite outcome_prepend in Hok'. rewrite final_prepend.
    rewrite trace_prepend in Hin'.
    change (Log INFO _ :: [e0] ++ [IterNotes enex_file])
      with ([Log INFO ("Processing notebook '"
                       +:+ PyPath.stem enex_file +:+ "'..."); e0]
            ++ [IterNotes enex_file]) in Hin'.
    rewrite !processed_files_app, upload_notes_no_iter in Hin'.
    assert (f = enex_file) as ->.
    { destruct e0; try done; simpl in Hin'; set_solver. }
    by apply upload_notes_complete. }
  destruct (mode env self).
  - destruct (get_notebook_database env root _) as [r|]; [|done].
    by apply (Hcase r (GetNotebookDatabase (PyPath.stem enex_file))).
  - destruct (get_notebook_page env root _) as [r|]; [|done].
    by apply (Hcase r (GetNotebookPage (PyPath.stem enex_file))).
Qed.

Lemma cli_inputs_complete (self : EnexUploader env) (inputs : list Path)
    (s : state) :
  holds (complete_rel env self) (cli_inputs env self inputs) s.
Proof.
  apply holds_cli_inputs.
  - apply complete_rel_composable.
  - intros msg s'. by apply complete_rel_one.
  - apply upload_complete.
Qed.

Lemma filter_eq_not_in (h : string) (l : list string) :
  h ∉ l → filter (λ h', h' = h) l = [].
Proof.
  induction l as [|x l IH]; [done|]. intros Hn.
  rewrite filter_cons. destruct (decide (x = h)) as [->|Hne]; [set_solver|].
  apply IH. set_solver.
Qed.

Lemma NoDup_filter_eq_length (h : string) (l : list string) :
  NoDup l → h ∈ l → length (filter (λ h', h' = h) l) = 1.
Proof.
  induction 1 as [|x l Hx Hnd IH]; [by intros ?%elem_of_nil|].
  intros Hin. rewrite filter_cons. destruct (decide (x = h)) as [->|Hne].
  - simpl. by rewrite filter_eq_not_in.
  - apply IH. set_solver.
Qed.

(** When no attempt fails, the calls for a hash are its uploads. *)
Lemma count_uploads_of (h : string) (t : list event) :
  (∀ m, UploadNote m false ∉ t) →
  count (is_upload_of h) t = length (filter (λ h', h' = h) (uploaded t)).
Proof.
  unfold count. induction t as [|e t IH]; [done|]. intros Hno.
  assert (Hno' : ∀ m, UploadNote m false ∉ t).
  { intros m Hm. apply (Hno m). by apply elem_of_cons; right. }
  specialize (IH Hno'). rewrite filter_cons.
  destruct e as [| | | | | | | |m [] |]; simpl; try done.
  - rewrite filter_cons. unfold is_upload_of at 1.
    repeat case_decide; simpl; try (f_equal; exact IH); try exact IH;
      exfalso;
      match goal with
      | H : Is_true (bool_decide _) |- _ => by apply bool_decide_unpack in H
      | H : ¬ Is_true (bool_decide _) |- _ => apply H; by apply bool_decide_pack
      end.
  - exfalso. apply (Hno m). by apply elem_of_cons; left.
Qed.

End Complete.

(** C6. In a run that uploads (a token is given) and returns, take a note with
    blocks of an export file that was read, its hash not done at the start.
    Then exactly one upload with this hash succeeds, the hash is among the
    done hashes at the end, no call of [upload_note] is made for a hash once
    an upload with it has succeeded (a later note that carries it is
    skipped), and when no attempt of the run fails there is exactly one call
    of [upload_note] for this hash. *)
Theorem duplicate_hash_uploaded_once (env : Env) (args : Args.t)
    (files : gmap Path node) (f : Path) (n : Note) :
  let x := run env args files in
  outcome x = Ok tt →
  truthy (Args.token args) = true →
  f ∈ processed_files (trace x) →
  n ∈ iter_notes env f →
  has_blocks env (uploader_of env args None) n →
  note_hash n ∉ hashes (initial_done files (Args.done_file args)) →
  length (filter (λ h, h = note_hash n) (uploaded (trace x))) = 1
  ∧ note_hash n ∈ hashes (done (final x))
  ∧ (∀ pre m post,
       trace x = pre ++ UploadNote m true :: post →
       ∀ m' ok, UploadNote m' ok ∈ post → note_hash m' ≠ note_hash m)
  ∧ ((∀ m, UploadNote m false ∉ trace x) →
     count (is_upload_of (note_hash n)) (trace x) = 1).
Proof.
  intros x Hok Htok Hf Hn Hb Hfresh.
  destruct (run_ledger env args files) as (Htr & _ & Hh & _).
  fold x in Htr, Hh. specialize (Hh Hok).
  assert (Hdone : note_hash n ∈ hashes (done (final x))).
  { subst x. unfold run in *.
    set (s0 := {| fs := files; done := InSet ∅; upload_calls := 0 |}) in *.
    destruct (cli_cases env args s0)
      as [(e & t & E & Ht & _) | (root & t0 & E & Ht0 & Hdir & _ & Hroot)].
    { by rewrite E in Hok. }
    rewrite E in *. rewrite outcome_prepend in Hok.
    rewrite trace_prepend, processed_files_app,
      (processed_files_prelude t0 Ht0) in Hf.
    rewrite final_prepend.
    destruct (cli_inputs_complete env (uploader_of env args root)
                (Args.enex_input args) (ready args s0)) as [_ P].
    eapply P; try eassumption.
    - intros p Hp. simpl in Hp. apply Hdir.
      destruct (Args.done_file args); by simplify_eq/=.
    - by rewrite Hok.
    - simpl. by apply Hroot. }
  destruct (trace_ok_NoDup _ _ _ _ Htr) as [Hnd _].
  assert (Hup : note_hash n ∈ uploaded (trace x)).
  { rewrite Hh in Hdone. set_solver. }
  assert (Hone : length (filter (λ h, h = note_hash n) (uploaded (trace x)))
                 = 1) by by apply NoDup_filter_eq_length.
  split_and!; [done | done | |].
  - intros pre m post E m' ok Hin.
    apply list_elem_of_split in Hin as (a & b & ->).
    rewrite E in Htr.
    change (pre ++ UploadNote m true :: a ++ UploadNote m' ok :: b)
      with (pre ++ (UploadNote m true :: a) ++ UploadNote m' ok :: b) in Htr.
    rewrite app_assoc in Htr.
    destruct (trace_ok_attempt_fresh _ _ _ _ _ _ _ Htr) as (_ & H2 & _).
    intros Eh. apply H2. rewrite uploaded_app. simpl. rewrite Eh. set_solver.
  - intros Hno. by rewrite count_uploads_of.
Qed.

Lemma duplicate_hash_uploaded_once_witness :
  let env := mock_api [fake_note "fake_hash"; fake_note "fake_hash"]
               (λ _, false) in
  let x := run env (default_args (Some "fake_token") None [["fake.enex"]]) ∅ in
  length (filter (λ h, h = "fake_hash") (uploaded (trace x))) = 1
  ∧ "fake_hash" ∈ hashes (done (final x))
  ∧ count is_upload_attempt (trace x) = 1.
Proof.
  intros env x.
  destruct (duplicate_hash_uploaded_once env
              (default_args (Some "fake_token") None [["fake.enex"]]) ∅
              ["fake.enex"] (fake_note "fake_hash")) as (H1 & H2 & _).
  - vm_compute. reflexivity.
  - reflexivity.
  - apply (bool_decide_unpack _). vm_compute. exact I.
  - apply (bool_decide_unpack _). vm_compute. exact I.
  - exists tt, []. reflexivity.
  - simpl. apply not_elem_of_empty.
  - split; [exact H1|]. split; [exact H2|]. vm_compute. reflexivity.
Defined.

(** ** Dry runs *)

Section DryRun.

Context (env : Env).






End DryRun.



(** ** The order of the export files *)

Section Inputs.

Context (env : Env).

#[local] Instance path_le_total : Total PyPath.le.
Proof.
  intros p q. unfold PyPath.le, PyPath.lt.
  destruct (decide (lexico (PyPath.key q) (PyPath.key p))) as [H|H].
  - right. intros H'. apply (irreflexivity lexico (PyPath.key q)).
    by trans (PyPath.key p).
  - by left.
Qed.

#[local] Instance path_le_trans : Transitive PyPath.le.
Proof.
  intros a b c. unfold PyPath.le, PyPath.lt. intros Hba Hcb Hca.
  destruct (trichotomy lexico (PyPath.key a) (PyPath.key b))
    as [Hab | [Hab | Hab]].
  - apply Hcb. by trans (PyPath.key a).
  - apply Hcb. by rewrite <- Hab.
  - done.
Qed.

Lemma sorted_spec (l : list Path) :
  StronglySorted PyPath.le (sorted l) ∧ sorted l ≡ₚ l.
Proof.
  unfold sorted. split.
  - apply StronglySorted_merge_sort; apply _.
  - apply merge_sort_Permutation.
Qed.

Lemma elem_of_glob_enex (files : gmap Path node) (d p : Path) :
  p ∈ glob_enex files d
  ↔ is_Some (files !! p)
    ∧ PyPath.under d p = true
    ∧ reachable files d p = true
    ∧ PyStr.endswith (PyPath.name p) ".enex" = true.
Proof.
  unfold glob_enex. rewrite list_elem_of_filter, list_elem_of_fmap.
  rewrite !andb_True, !Is_true_true. split.
  - intros [((? & ?) & ?) ([q x] & -> & Hin)].
    apply elem_of_map_to_list in Hin. simpl in *. by split_and!; [eexists|..].
  - intros ([x Hx] & ? & ? & ?). split; [done|].
    exists (p, x). split; [done|]. by apply elem_of_map_to_list.
Qed.


(** [upload] reads its export file, unless the notebook root fails. *)
Lemma upload_processed (self : EnexUploader env) (f : Path) (s : state) :
  let x := upload env self f s in
  processed_files (trace x) = [f]
  ∨ (processed_files (trace x) = [] ∧ is_ok (outcome x) = false).
Proof.
  cbv zeta. rewrite upload_eq, _get_notebook_root_eq. cbv zeta.
  assert (Hgo : ∀ root e0,
    match e0 with IterNotes _ => False | _ => True end →
    processed_files
      (trace (prepend (Log INFO ("Processing notebook '" +:+ PyPath.stem f
                                  +:+ "'...") :: [e0] ++ [IterNotes f])
                (upload_notes env self root (iter_notes env f) s))) = [f]).
  { intros root e0 He0. rewrite trace_prepend.
    change (Log INFO _ :: [e0] ++ [IterNotes f])
      with ([Log INFO ("Processing notebook '" +:+ PyPath.stem f +:+ "'...");
             e0] ++ [IterNotes f]).
    rewrite !processed_files_app, upload_notes_no_iter.
    by destruct e0. }
  destruct (import_root env self) as [root|].
  - destruct (mode env self).
    + destruct (get_notebook_database env root _) as [r|].
      * left. by apply (Hgo (Some r) (GetNotebookDatabase _)).
      * right. done.
    + destruct (get_notebook_page env root _) as [r|].
      * left. by apply (Hgo (Some r) (GetNotebookPage _)).
      * right. done.
  - left. rewrite trace_prepend, !processed_files_app, upload_notes_no_iter.
    done.
Qed.

Lemma upload_files_processed (self : EnexUploader env) (files : list Path) :
  ∀ s,
    let x := upload_files env self files s in
    processed_files (trace x) `prefix_of` files
    ∧ (is_ok (outcome x) = true → processed_files (trace x) = files).
Proof.
  induction files as [|f files IH]; intros s; cbv zeta.
  { split; [apply prefix_nil | done]. }
  cbn [upload_files]. rewrite bind_prepend.
  pose proof (upload_processed self f s) as Hup. cbv zeta in Hup.
  destruct (upload env self f s) as [[[[]|e] s1] t1];
    unfold trace, outcome in Hup; simpl in Hup.
  - destruct Hup as [Hup | [_ ?]]; [|done].
    destruct (IH s1) as [IH1 IH2].
    rewrite trace_prepend, outcome_prepend, processed_files_app, Hup.
    split; [by apply prefix_cons|]. intros Hok. simpl. f_equal. by apply IH2.
  - unfold trace, outcome. simpl. split; [|done].
    destruct Hup as [-> | [-> _]]; [|apply prefix_nil].
    apply prefix_cons, prefix_nil.
Qed.

Lemma cli_inputs_cons (self : EnexUploader env) (enex_input : Path)
    (rest : list Path) (s : state) :
  cli_inputs env self (enex_input :: rest) s
  = match (if is_dir (fs s) enex_input then
             prepend [Log INFO ("Processing directory '"
                                +:+ PyPath.name enex_input +:+ "'...")]
               (upload_files env self (sorted (glob_enex (fs s) enex_input)) s)
           else upload env self enex_input s) with
    | (Ok _, s1, t1) => prepend t1 (cli_inputs env self rest s1)
    | (Raise e, s1, t1) => (Raise e, s1, t1)
    end.
Proof.
  cbn [cli_inputs]. rewrite bind_prepend. unfold get_fs.
  rewrite prepend_nil, bind_prepend.
  destruct (is_dir (fs s) enex_input); [|reflexivity].
  rewrite bind_prepend. reflexivity.
Qed.


End Inputs.


(** The run of [cli(["test_dir"])] on [test_dir], with no token: the three
    export files below the directory, and only they, in the order of their
    paths. *)
Example test_dir_in_sorted_order :
  processed_files
    (trace (run (mock_api [] (λ _, false))
              (default_args None None [["test_dir"]]) test_dir))
  = [["test_dir"; "a"; "z.enex"]; ["test_dir"; "a-b.enex"];
     ["test_dir"; "b.enex"]].
Proof. vm_compute. reflexivity. Qed.

(** * Further properties *)

(** ** Reading a done file *)

Section Reading.

Import PyStr.











Lemma readlines_line_crlf (h rest : string) :
  has_linebreak h = false →
  readlines (universal_newlines (h +:+ String CR (String LF "") +:+ rest))
  = DoneFile.line h :: readlines (universal_newlines rest).
Proof.
  unfold DoneFile.line. induction h as [|c h IH]; intros Hh.
  - done.
  - simpl in Hh. apply orb_false_elim in Hh as [Hc Hh].
    apply orb_false_elim in Hc as [Hlf Hcr].
    rewrite (append_cons c h). simpl. rewrite Hcr. simpl. rewrite Hlf.
    by rewrite IH.
Qed.

End Reading.

(** X1. A done file written with the line ends of Windows reads as the same
    file with plain line feeds does: for hashes with no line break inside
    and no blank at either end, both give exactly these hashes. *)
Theorem done_file_read_with_crlf (hs : list string) :
  Forall (λ h, DoneFile.clean h = true) hs →
  DoneFile.load (lines_crlf hs) = list_to_set hs
  ∧ DoneFile.load (lines_crlf hs) = DoneFile.load (DoneFile.lines hs).
Proof.
  intros Hhs. rewrite DoneFileFacts.load_lines by done.
  assert (H : DoneFile.load (lines_crlf hs) = list_to_set hs); [|done].
  unfold DoneFile.load. induction Hhs as [|h hs Hh _ IH]; [done|].
  unfold DoneFile.clean in Hh. apply andb_prop in Hh as [H1 H2].
  apply negb_true_iff in H1. apply bool_decide_eq_true in H2.
  simpl lines_crlf. rewrite readlines_line_crlf by done.
  rewrite fmap_cons, strip_line by done. simpl. by rewrite IH.
Qed.

Lemma done_file_read_with_crlf_witness :
  DoneFile.load (lines_crlf ["fake_hash1"; "fake_hash2"])
  = list_to_set ["fake_hash1"; "fake_hash2"]
  ∧ DoneFile.load (lines_crlf ["fake_hash1"; "fake_hash2"])
    = DoneFile.load (DoneFile.lines ["fake_hash1"; "fake_hash2"]).
Proof.
  apply (done_file_read_with_crlf ["fake_hash1"; "fake_hash2"]).
  repeat constructor.
Defined.



(** ** Notes that are done *)

Section DoneNotes.

Context (env : Env).

Lemma parse_rel_composable : composable parse_rel.
Proof.
  pose proof ledger_rel_composable as HR. split.
  - intros s b. split; [apply (comp_nil _ HR)|].
    intros _ n Hn. by apply elem_of_nil in Hn.
  - intros s t1 s1 b t2 s2 [H1 P1] [H2 P2].
    split; [by eapply (comp_app _ HR)|].
    intros Hf n Hn. destruct (H1 Hf) as (Hf1 & _ & Hh1 & _).
    apply elem_of_app in Hn as [Hn | Hn]; [by apply P1|].
    specialize (P2 Hf1 n Hn). rewrite Hh1 in P2. set_solver.
Qed.

Lemma parse_rel_quiet (s s' : state) (b : bool) (t : list event) :
  ledger_rel s b t s' → (∀ n, ParseNote n ∉ t) → parse_rel s b t s'.
Proof. intros H Hn. split; [done|]. intros _ n Hin. by destruct (Hn n). Qed.

Lemma parse_rel_parsed (s : state) (b : bool) (n : Note) (t : list event) :
  note_hash n ∉ hashes (done s) →
  Forall (λ e, match e with Log _ _ => True | _ => False end) t →
  parse_rel s b (ParseNote n :: t) s.
Proof.
  intros Hn Ht. split.
  - apply ledger_rel_events. constructor; [done|].
    eapply Forall_impl; [exact Ht|]. by intros [].
  - intros _ m [[= ->] | Hm]%elem_of_cons; [done|].
    rewrite Forall_forall in Ht. by specialize (Ht _ Hm).
Qed.

Lemma parse_rel_assume (s s' : state) (b : bool) (t : list event) :
  (ledger_free s → parse_rel s b t s') → parse_rel s b t s'.
Proof. intros H. split; intros Hf; by destruct (H Hf) as [H1 H2]; auto. Qed.

Lemma not_parse_retries (n m : Note) (msg : string) (k : nat) :
  ParseNote m ∉ retries n msg k.
Proof.
  induction k as [|k IH]; [by intros ?%elem_of_nil|].
  simpl. intros [?|[?|?]%elem_of_cons]%elem_of_cons; done.
Qed.

Lemma upload_notes_parse (self : EnexUploader env)
    (notebook_root : option (Root env)) (notes : list Note) (s : state) :
  holds parse_rel (upload_notes env self notebook_root notes) s.
Proof.
  pose proof parse_rel_composable as HR.
  revert s. induction notes as [|note rest IH]; intros s.
  { by apply holds_ret. }
  unfold holds in *. rewrite upload_notes_cons.
  rewrite done_contains_hashes.
  destruct (bool_decide (note_hash note ∈ hashes (done s))) eqn:Ec.
  { apply (rel_prepend _ s s); [done | | apply IH].
    apply parse_rel_quiet; [by apply ledger_rel_one|].
    intros n [?|?%elem_of_nil]%elem_of_cons; done. }
  apply bool_decide_eq_false in Ec. cbv zeta. rewrite _parse_note_eq.
  set (note' := append_custom_tag env self note).
  assert (Hn : note_hash note' ∉ hashes (done s)).
  { unfold note'. by rewrite note_hash_append_custom_tag. }
  destruct (parse_note env note' _ _ _ _ _) as [[|b bs]|].
  - apply (rel_prepend _ s s); [done | by apply parse_rel_parsed | apply IH].
  - destruct notebook_root as [r|];
      [|apply (rel_prepend _ s s);
        [done | by apply parse_rel_parsed | apply IH]].
    rewrite _upload_note_eq.
    set (k := leading_failures _ _ 5). destruct (k <? 5).
    + fold (called_times (S k) s). apply parse_rel_assume. intros Hf.
      destruct (ledger_rel_uploaded note' (retry_message note') k s Hn Hf)
        as (s3 & t3 & E & H3).
      rewrite E. apply (rel_prepend _ s s3); [done | | apply IH].
      change ([ParseNote note'] ++ (retries note' (retry_message note') k
                ++ [UploadNote note' true]) ++ t3)
        with ([ParseNote note'] ++ ((retries note' (retry_message note') k
                ++ [UploadNote note' true]) ++ t3)).
      eapply (comp_app _ HR); [by apply parse_rel_parsed|].
      apply parse_rel_quiet; [by rewrite <- app_assoc|].
      intros m Hm. apply elem_of_app in Hm as [Hm | Hm].
      * apply elem_of_app in Hm as [Hm | Hm];
          [by apply not_parse_retries in Hm|].
        by apply list_elem_of_singleton in Hm.
      * revert E Hm. unfold done_add. cbn [done fs called_times].
        destruct (done s) as [f|hs]; [|by intros [= _ <-] ?%elem_of_nil].
        destruct (DoneFile.add f (note_hash note') (fs s))
          as [f' [fs'|e]]; [|done].
        intros [= _ <-] [?|?%elem_of_nil]%elem_of_cons; done.
    + unfold outcome, trace, final. simpl fst. simpl snd.
      change (parse_rel s false
                ([ParseNote note'] ++ (retries note' (retry_message note') 4
                   ++ [UploadNote note' false])) (called_times 5 s)).
      eapply (comp_app _ HR); [by apply parse_rel_parsed|].
      apply parse_rel_quiet; [by apply ledger_rel_gave_up|].
      intros m Hm. apply elem_of_app in Hm as [Hm | Hm];
        [by apply not_parse_retries in Hm|].
      by apply list_elem_of_singleton in Hm.
  - apply parse_rel_parsed; [done | by repeat constructor].
Qed.

Lemma upload_parse (self : EnexUploader env) (enex_file : Path) (s : state) :
  holds parse_rel (upload env self enex_file) s.
Proof.
  pose proof parse_rel_composable as HR.
  assert (Hq : ∀ b t, Forall (λ e, match e with
                                   | UploadNote _ _ | FileAppend _ _
                                   | ParseNote _ => False
                                   | _ => True
                                   end) t → parse_rel s b t s).
  { intros b t Ht. apply parse_rel_quiet.
    - apply ledger_rel_events. eapply Forall_impl; [exact Ht|]. by intros [].
    - intros n Hn. rewrite Forall_forall in Ht. by specialize (Ht _ Hn). }
  unfold holds. rewrite upload_eq, _get_notebook_root_eq. cbv zeta.
  destruct (import_root env self) as [root|].
  - destruct (mode env self).
    + destruct (get_notebook_database env root _).
      * apply (rel_prepend _ s s); [done | | apply upload_notes_parse].
        apply Hq. by repeat constructor.
      * apply Hq. by repeat constructor.
    + destruct (get_notebook_page env root _).
      * apply (rel_prepend _ s s); [done | | apply upload_notes_parse].
        apply Hq. by repeat constructor.
      * apply Hq. by repeat constructor.
  - apply (rel_prepend _ s s); [done | | apply upload_notes_parse].
    apply Hq. by repeat constructor.
Qed.

Lemma cli_inputs_parse (self : EnexUploader env) (inputs : list Path)
    (s : state) :
  holds parse_rel (cli_inputs env self inputs) s.
Proof.
  apply holds_cli_inputs.
  - apply parse_rel_composable.
  - intros msg s'. apply parse_rel_quiet; [by apply ledger_rel_one|].
    intros n [?|?%elem_of_nil]%elem_of_cons; done.
  - apply upload_parse.
Qed.

Lemma prelude_no_parse (t : list event) (n : Note) :
  Forall (λ e, is_prelude e) t → ParseNote n ∉ t.
Proof.
  intros Ht Hn. rewrite Forall_forall in Ht. by specialize (Ht _ Hn).
Qed.

(** The notes a run parses have hashes that were not done at its start. *)
Lemma run_parse (args : Args.t) (files : gmap Path node) (n : Note) :
  ParseNote n ∈ trace (run env args files) →
  note_hash n ∉ hashes (initial_done files (Args.done_file args)).
Proof.
  unfold run.
  set (s0 := {| fs := files; done := InSet ∅; upload_calls := 0 |}).
  destruct (cli_cases env args s0)
    as [(e & t & E & Ht & _) | (root & t0 & E & Ht0 & Hdir & _)]; rewrite E.
  - intros Hn. by apply prelude_no_parse in Hn.
  - rewrite trace_prepend. intros [Hn | Hn]%elem_of_app.
    { by apply prelude_no_parse in Hn. }
    destruct (cli_inputs_parse (uploader_of env args root)
                (Args.enex_input args) (ready args s0)) as [_ P].
    apply (P ltac:(intros p Hp; simpl in Hp; apply Hdir;
                   destruct (Args.done_file args); by simplify_eq/=) n Hn).
Qed.

End DoneNotes.

(** X3. A note whose hash is done when a run starts (it is in the done file)
    is neither handed to [parse_note] nor to [upload_note] in that run. *)
Theorem done_note_is_left_alone (env : Env) (args : Args.t)
    (files : gmap Path node) (n : Note) :
  note_hash n ∈ hashes (initial_done files (Args.done_file args)) →
  let x := run env args files in
  (ParseNote n ∉ trace x) ∧ ∀ ok, UploadNote n ok ∉ trace x.
Proof.
  intros Hn x. split.
  - intros Hp. by apply (run_parse env args files n Hp).
  - intros ok Hu. destruct (run_ledger env args files) as (Htr & _).
    fold x in Htr. apply list_elem_of_split in Hu as (pre & post & E).
    rewrite E in Htr.
    by destruct (trace_ok_attempt_fresh _ _ _ _ _ _ _ Htr) as (? & _).
Qed.

Lemma done_note_is_left_alone_witness :
  let env := mock_api [fake_note "fake_hash1"; fake_note "fake_hash2"]
               (λ _, false) in
  let files : gmap Path node :=
    {[ ["done.txt"] := File (DoneFile.lines ["fake_hash1"; "fake_hash2"]) ]} in
  let x := run env (default_args (Some "fake_token") (Some ["done.txt"])
                      [["fake.enex"]]) files in
  (ParseNote (fake_note "fake_hash1") ∉ trace x)
  ∧ ∀ ok, UploadNote (fake_note "fake_hash1") ok ∉ trace x.
Proof.
  intros env files x.
  apply (done_note_is_left_alone env
           (default_args (Some "fake_token") (Some ["done.txt"])
              [["fake.enex"]]) files (fake_note "fake_hash1")).
  apply (bool_decide_unpack _). vm_compute. exact I.
Defined.




(** ** How a run begins and how it ends *)

Section Ends.

Context (env : Env).













End Ends.







(** ** Where the notes come from, and the custom tag *)

Section Provenance.

Context (env : Env).

Lemma append_custom_tag_fields (self : EnexUploader env) (n : Note) :
  let n' := append_custom_tag env self n in
  title n' = title n ∧ note_hash n' = note_hash n ∧ content n' = content n.
Proof.
  cbv zeta. unfold append_custom_tag. destruct (custom_tag env self); [|done].
  by destruct (_ && _).
Qed.

Lemma append_custom_tag_tags (self : EnexUploader env) (n : Note)
    (t : string) :
  custom_tag env self = Some t → t ≠ "" →
  let n' := append_custom_tag env self n in
  t ∈ tags n' ∧ (tags n' = tags n ∨ ((t ∉ tags n) ∧ tags n' = tags n ++ [t])).
Proof.
  intros Ht Hne. cbv zeta. unfold append_custom_tag. rewrite Ht.
  assert (truthy (Some t) = true) as -> by (by destruct t).
  destruct (bool_decide (t ∈ tags n)) eqn:E; simpl.
  - apply bool_decide_eq_true in E. split; [done | by left].
  - apply bool_decide_eq_false in E. split; [|by right].
    apply elem_of_app. right. by apply list_elem_of_singleton.
Qed.

Lemma append_custom_tag_none (self : EnexUploader env) (n : Note) :
  truthy (custom_tag env self) = false → append_custom_tag env self n = n.
Proof.
  unfold append_custom_tag. destruct (custom_tag env self) as [t|]; [|done].
  by intros ->.
Qed.

Lemma from_notes_cons (self : EnexUploader env) (note : Note)
    (rest : list Note) (t : list event) :
  Forall (from_notes env self rest) t →
  Forall (from_notes env self (note :: rest)) t.
Proof.
  intros H. eapply Forall_impl; [exact H|].
  intros e He n Hn. destruct (He n Hn) as (n0 & H0 & E).
  exists n0. split; [by apply list_elem_of_further | done].
Qed.

Lemma from_notes_quiet (self : EnexUploader env) (notes : list Note)
    (e : event) :
  note_of e = None → from_notes env self notes e.
Proof. intros H n Hn. congruence. Qed.

Lemma from_notes_here (self : EnexUploader env) (note : Note)
    (rest : list Note) (e : event) :
  note_of e = Some (append_custom_tag env self note) →
  from_notes env self (note :: rest) e.
Proof.
  intros H n Hn. exists note. split; [apply list_elem_of_here | congruence].
Qed.

Lemma from_notes_retries (self : EnexUploader env) (note : Note)
    (rest : list Note) (msg : string) (k : nat) :
  Forall (from_notes env self (note :: rest))
    (retries (append_custom_tag env self note) msg k).
Proof.
  induction k as [|k IH]; [done|]. simpl.
  repeat constructor; [by apply from_notes_here | by apply from_notes_quiet
                      | done].
Qed.

Lemma done_add_quiet (self : EnexUploader env) (notes : list Note)
    (h : string) (s : state) :
  Forall (from_notes env self notes) (trace (done_add h s)).
Proof.
  unfold done_add. destruct (done s) as [f|hs]; [|done].
  destruct (DoneFile.add f h (fs s)) as [f' [fs'|e]]; [|done].
  repeat constructor. by apply from_notes_quiet.
Qed.

Lemma upload_notes_from_notes (self : EnexUploader env)
    (notebook_root : option (Root env)) (notes : list Note) :
  ∀ s, Forall (from_notes env self notes)
         (trace (upload_notes env self notebook_root notes s)).
Proof.
  induction notes as [|note rest IH]; intros s; [done|].
  rewrite upload_notes_cons.
  destruct (done_contains (done s) (note_hash note)).
  { rewrite trace_prepend. apply Forall_app. split.
    - repeat constructor. by apply from_notes_quiet.
    - apply from_notes_cons, IH. }
  cbv zeta. rewrite _parse_note_eq.
  set (note' := append_custom_tag env self note).
  assert (Hp : Forall (from_notes env self (note :: rest)) [ParseNote note']).
  { repeat constructor. by apply from_notes_here. }
  destruct (parse_note env note' _ _ _ _ _) as [[|b bs]|].
  - rewrite trace_prepend. apply Forall_app. split; [done|].
    apply from_notes_cons, IH.
  - destruct notebook_root as [r|].
    2:{ rewrite trace_prepend. apply Forall_app. split; [done|].
        apply from_notes_cons, IH. }
    rewrite _upload_note_eq.
    set (k := leading_failures _ _ 5). destruct (k <? 5).
    + pose proof (done_add_quiet self (note :: rest) (note_hash note')
                    {| fs := fs s; done := done s;
                       upload_calls := S k + upload_calls s |}) as Hd.
      destruct (done_add _ _) as [[[[]|e] s3] t3]; unfold trace in Hd;
        simpl in Hd.
      * rewrite trace_prepend. rewrite !Forall_app. split_and!; try done.
        -- apply from_notes_retries.
        -- repeat constructor. by apply from_notes_here.
        -- apply from_notes_cons, IH.
      * unfold trace. simpl. constructor; [by apply from_notes_here|].
        rewrite !Forall_app.
        split_and!; [apply from_notes_retries | | done].
        repeat constructor. by apply from_notes_here.
    + unfold trace. simpl.
      repeat constructor;
        first [by apply from_notes_here | by apply from_notes_quiet].
  - unfold trace. simpl. repeat constructor; [by apply from_notes_here|].
    by apply from_notes_quiet.
Qed.

Lemma provenance_rel_composable (self : EnexUploader env) :
  composable (provenance_rel env self).
Proof.
  split.
  - intros s b e n He. by apply elem_of_nil in He.
  - intros s t1 s1 b t2 s2 H1 H2 e n He Hn.
    rewrite processed_files_app.
    apply elem_of_app in He as [He | He].
    + destruct (H1 e n He Hn) as (f & n0 & Hf & H0 & E).
      exists f, n0. split_and!; [|done..]. apply elem_of_app. by left.
    + destruct (H2 e n He Hn) as (f & n0 & Hf & H0 & E).
      exists f, n0. split_and!; [|done..]. apply elem_of_app. by right.
Qed.

Lemma provenance_rel_quiet (self : EnexUploader env) (s s' : state)
    (b : bool) (t : list event) :
  Forall (λ e, note_of e = None) t → provenance_rel env self s b t s'.
Proof.
  intros Ht e n He Hn. rewrite Forall_forall in Ht.
  specialize (Ht e He). congruence.
Qed.

Lemma upload_provenance (self : EnexUploader env) (enex_file : Path)
    (s : state) :
  holds (provenance_rel env self) (upload env self enex_file) s.
Proof.
  assert (Hgo : ∀ root t1 b,
    Forall (λ e, note_of e = None) t1 →
    let x := prepend (Log INFO ("Processing notebook '"
                                +:+ PyPath.stem enex_file +:+ "'...")
                      :: t1 ++ [IterNotes enex_file])
               (upload_notes env self root (iter_notes env enex_file) s) in
    provenance_rel env self s b (trace x) (final x)).
  { intros root t1 b Ht1 x e n He Hn. subst x. rewrite trace_prepend in *.
    exists enex_file. rewrite processed_files_app.
    change (Log INFO _ :: t1 ++ [IterNotes enex_file])
      with ([Log INFO ("Processing notebook '" +:+ PyPath.stem enex_file
                       +:+ "'...")] ++ t1 ++ [IterNotes enex_file]) in *.
    rewrite !processed_files_app.
    apply elem_of_app in He as [He | He].
    - exfalso. apply elem_of_app in He as [He | He].
      + apply list_elem_of_singleton in He. by subst e.
      + apply elem_of_app in He as [He | He].
        * rewrite Forall_forall in Ht1. specialize (Ht1 e He). congruence.
        * apply list_elem_of_singleton in He. by subst e.
    - pose proof (upload_notes_from_notes self root
                    (iter_notes env enex_file) s) as H.
      rewrite Forall_forall in H. destruct (H e He n Hn) as (n0 & H0 & E).
      exists n0. split_and!; [|done..].
      apply elem_of_app. left. apply elem_of_app. right.
      apply elem_of_app. right. simpl. apply list_elem_of_here. }
  unfold holds. rewrite upload_eq, _get_notebook_root_eq. cbv zeta.
  destruct (import_root env self) as [root|].
  - destruct (mode env self).
    + destruct (get_notebook_database env root _) as [r|].
      * apply (Hgo (Some r) [GetNotebookDatabase _]). by repeat constructor.
      * apply provenance_rel_quiet. by repeat constructor.
    + destruct (get_notebook_page env root _) as [r|].
      * apply (Hgo (Some r) [GetNotebookPage _]). by repeat constructor.
      * apply provenance_rel_quiet. by repeat constructor.
  - apply (Hgo None []). done.
Qed.

Lemma cli_inputs_provenance (self : EnexUploader env) (inputs : list Path)
    (s : state) :
  holds (provenance_rel env self) (cli_inputs env self inputs) s.
Proof.
  apply holds_cli_inputs.
  - apply provenance_rel_composable.
  - intros msg s'. apply provenance_rel_quiet. by repeat constructor.
  - apply upload_provenance.
Qed.

Lemma prelude_no_note (t : list event) :
  Forall (λ e, is_prelude e) t → Forall (λ e, note_of e = None) t.
Proof. intros H. eapply Forall_impl; [exact H|]. by intros []. Qed.

Lemma run_provenance (args : Args.t) (files : gmap Path node) :
  let x := run env args files in
  ∀ e n, e ∈ trace x → note_of e = Some n →
         ∃ f n0, f ∈ processed_files (trace x) ∧ n0 ∈ iter_notes env f
                 ∧ n = append_custom_tag env (uploader_of env args None) n0.
Proof.
  cbv zeta. unfold run.
  set (s0 := {| fs := files; done := InSet ∅; upload_calls := 0 |}).
  destruct (cli_cases env args s0)
    as [(e0 & t & E & Ht & _) | (root & t0 & E & Ht0 & _)]; rewrite E.
  - intros e n He Hn. apply prelude_no_note in Ht.
    rewrite Forall_forall in Ht. specialize (Ht e He). congruence.
  - pose proof (cli_inputs_provenance (uploader_of env args root)
                  (Args.enex_input args) (ready args s0)) as H.
    pose proof (rel_prepend (provenance_rel env (uploader_of env args root))
                  s0 (ready args s0) t0 _
                  (provenance_rel_composable _)
                  (provenance_rel_quiet _ _ _ _ _ (prelude_no_note _ Ht0))
                  H) as H'.
    intros e n He Hn. destruct (H' e n He Hn) as (f & n0 & Hf & H0 & En).
    by exists f, n0.
Qed.

End Provenance.

(** X8. Every note a run hands to [parse_note] or to [upload_note] is a note
    of an export file the run has read: with its title, hash and content as
    read, and with the tag of [--tag] among its tags, appended at the end
    unless the note carried it already. Without a tag, or with an empty one,
    the note is handed on as it was read. *)
Theorem notes_carry_the_custom_tag (env : Env) (args : Args.t)
    (files : gmap Path node) (e : event) (n : Note) :
  let x := run env args files in
  e ∈ trace x → note_of e = Some n →
  ∃ f n0,
    f ∈ processed_files (trace x) ∧ n0 ∈ iter_notes env f
    ∧ title n = title n0 ∧ note_hash n = note_hash n0
    ∧ content n = content n0
    ∧ (∀ t, Args.tag args = Some t → t ≠ "" →
            t ∈ tags n
            ∧ (tags n = tags n0 ∨ ((t ∉ tags n0) ∧ tags n = tags n0 ++ [t])))
    ∧ (truthy (Args.tag args) = false → n = n0).
Proof.
  intros x He Hn.
  destruct (run_provenance env args files e n He Hn)
    as (f & n0 & Hf & H0 & ->).
  exists f, n0.
  destruct (append_custom_tag_fields env (uploader_of env args None) n0)
    as (Ht & Hh & Hc).
  split_and!; try done.
  - intros t Ht' Hne. by apply append_custom_tag_tags.
  - intros Hno. by apply append_custom_tag_none.
Qed.

Lemma notes_carry_the_custom_tag_witness :
  let args := {| Args.enex_input := [["fake.enex"]]; Args.token := None;
                 Args.root_page := "Evernote ENEX Import"; Args.mode := DB;
                 Args.mode_webclips := TXT; Args.add_pdf_preview := false;
                 Args.add_meta := false; Args.tag := Some "test_tag";
                 Args.condense_lines := false;
                 Args.condense_lines_sparse := false;
                 Args.done_file := None; Args.log := None;
                 Args.verbose := false |} in
  let env := mock_api [fake_note "fake_hash"] (λ _, false) in
  let n := {| title := "fake"; note_hash := "fake_hash";
              tags := ["test_tag"]; content := "" |} in
  ∃ f n0,
    f ∈ processed_files (trace (run env args ∅)) ∧ n0 ∈ iter_notes env f
    ∧ title n = title n0 ∧ note_hash n = note_hash n0
    ∧ content n = content n0
    ∧ (∀ t, Args.tag args = Some t → t ≠ "" →
            t ∈ tags n
            ∧ (tags n = tags n0 ∨ ((t ∉ tags n0) ∧ tags n = tags n0 ++ [t])))
    ∧ (truthy (Args.tag args) = false → n = n0).
Proof.
  intros args env n.
  apply (notes_carry_the_custom_tag env args ∅ (ParseNote n) n);
    [|reflexivity].
  apply (bool_decide_unpack _). vm_compute. exact I.
Defined.

(** X9. The tag is appended at most once: tagging a note that has been
    tagged changes nothing, and a note whose tags are distinct keeps them
    distinct. *)
Theorem custom_tag_appended_once (env : Env) (self : EnexUploader env)
    (n : Note) :
  NoDup (tags n) →
  let n' := append_custom_tag env self n in
  NoDup (tags n') ∧ append_custom_tag env self n' = n'.
Proof.
  intros Hnd. cbv zeta. unfold append_custom_tag.
  destruct (custom_tag env self) as [t|]; [|done].
  destruct (truthy (Some t)); simpl; [|done].
  destruct (bool_decide (t ∈ tags n)) eqn:E; simpl.
  - by rewrite E.
  - apply bool_decide_eq_false in E. split.
    + apply NoDup_app. split_and!; [done | | apply NoDup_singleton].
      intros x Hx ->%list_elem_of_singleton. done.
    + rewrite bool_decide_eq_true_2; [done|].
      apply elem_of_app. right. by apply list_elem_of_singleton.
Qed.

Lemma custom_tag_appended_once_witness :
  let env := mock_api [] (λ _, false) in
  let self := uploader_of env
                {| Args.enex_input := [["fake.enex"]]; Args.token := None;
                   Args.root_page := "Evernote ENEX Import"; Args.mode := DB;
                   Args.mode_webclips := TXT; Args.add_pdf_preview := false;
                   Args.add_meta := false; Args.tag := Some "test_tag";
                   Args.condense_lines := false;
                   Args.condense_lines_sparse := false;
                   Args.done_file := None; Args.log := None;
                   Args.verbose := false |} None in
  let n' := append_custom_tag env self (fake_note "fake_hash") in
  NoDup (tags n') ∧ append_custom_tag env self n' = n'.
Proof.
  intros env self.
  apply (custom_tag_appended_once env self (fake_note "fake_hash")).
  apply NoDup_nil_2.
Defined.

(** ** Which files a run reads *)

Section Reads.

Context (env : Env).

(** Appending to the done file turns no path into a directory, nor a
    directory into something else. *)
Lemma ledger_rel_is_dir (s s' : state) (b : bool) (t : list event) :
  ledger_rel s b t s' → ledger_free s →
  ∀ q, is_dir (fs s') q = is_dir (fs s) q.
Proof.
  intros H Hf q. destruct (H Hf) as (Hf' & Hl & _ & _ & _ & Hfs).
  destruct (decide (ledger (done s) = Some q)) as [E | E].
  - unfold is_dir. specialize (Hf q E). rewrite <- Hl in E.
    specialize (Hf' q E).
    destruct (fs s' !! q) as [[]|], (fs s !! q) as [[]|]; done.
  - unfold is_dir. by rewrite (Hfs q E).
Qed.

(** The turn of one input keeps [ledger_rel]. *)
Lemma input_turn_ledger (self : EnexUploader env) (enex_input : Path)
    (s : state) :
  let part :=
    if is_dir (fs s) enex_input then
      prepend [Log INFO ("Processing directory '"
                         +:+ PyPath.name enex_input +:+ "'...")]
        (upload_files env self (sorted (glob_enex (fs s) enex_input)) s)
    else upload env self enex_input s in
  ledger_rel s (is_ok (outcome part)) (trace part) (final part).
Proof.
  cbv zeta. destruct (is_dir (fs s) enex_input).
  - apply (rel_prepend _ s s); [apply ledger_rel_composable
                               | by apply ledger_rel_one |].
    apply (holds_upload_files env ledger_rel self ledger_rel_composable
             (upload_ledger env self)).
  - apply upload_ledger.
Qed.

(** The files read in the turn of one input. *)
Lemma input_turn_reads (self : EnexUploader env) (enex_input : Path)
    (s : state) (f : Path) :
  let part :=
    if is_dir (fs s) enex_input then
      prepend [Log INFO ("Processing directory '"
                         +:+ PyPath.name enex_input +:+ "'...")]
        (upload_files env self (sorted (glob_enex (fs s) enex_input)) s)
    else upload env self enex_input s in
  f ∈ processed_files (trace part) →
  if is_dir (fs s) enex_input then
    PyPath.under enex_input f = true
    ∧ PyStr.endswith (PyPath.name f) ".enex" = true
  else f = enex_input.
Proof.
  cbv zeta. destruct (is_dir (fs s) enex_input).
  - rewrite trace_prepend, processed_files_app. simpl. intros Hf.
    destruct (upload_files_processed env self
                (sorted (glob_enex (fs s) enex_input)) s) as [[k Hk] _].
    assert (Hin : f ∈ sorted (glob_enex (fs s) enex_input)).
    { rewrite Hk. apply elem_of_app. by left. }
    destruct (sorted_spec (glob_enex (fs s) enex_input)) as [_ Hp].
    rewrite Hp in Hin. apply elem_of_glob_enex in Hin. tauto.
  - pose proof (upload_processed env self enex_input s) as Hup.
    cbv zeta in Hup. destruct Hup as [-> | [-> _]].
    + by intros ->%list_elem_of_singleton.
    + by intros ?%elem_of_nil.
Qed.

Lemma cli_inputs_reads (self : EnexUploader env) (files : gmap Path node)
    (inputs : list Path) :
  ∀ s f,
    ledger_free s →
    (∀ q, is_dir (fs s) q = is_dir files q) →
    f ∈ processed_files (trace (cli_inputs env self inputs s)) →
    ∃ i, i ∈ inputs
         ∧ if is_dir files i then
             PyPath.under i f = true
             ∧ PyStr.endswith (PyPath.name f) ".enex" = true
           else f = i.
Proof.
  induction inputs as [|i inputs IH]; intros s f Hf Hd.
  { by intros ?%elem_of_nil. }
  rewrite cli_inputs_cons.
  pose proof (input_turn_ledger self i s) as HL.
  pose proof (input_turn_reads self i s f) as HR.
  cbv zeta in HL, HR.
  set (part := if is_dir (fs s) i then prepend _ _ else _) in *.
  rewrite (Hd i) in HR.
  assert (Hd1 : ∀ q, is_dir (fs (final part)) q = is_dir files q).
  { intros q. rewrite <- (Hd q). by apply (ledger_rel_is_dir _ _ _ _ HL). }
  assert (Hf1 : ledger_free (final part)) by (by apply HL).
  destruct part as [[[[]|e] s1] t1]; unfold trace, final in HR, Hd1, Hf1;
    simpl in HR, Hd1, Hf1.
  - rewrite trace_prepend, processed_files_app.
    intros [H | H]%elem_of_app.
    + exists i. split; [apply list_elem_of_here | by apply HR].
    + destruct (IH s1 f Hf1 Hd1 H) as (i' & Hi' & H').
      exists i'. split; [by apply list_elem_of_further | done].
  - intros H. exists i. split; [apply list_elem_of_here | by apply HR].
Qed.

End Reads.

(** X10. A run reads no export file but those its inputs stand for. For an
    input that is a directory when the run starts, these are paths below it
    whose name ends in [.enex]; any other input is read as an export file
    itself, whatever its name. *)
Theorem only_the_inputs_are_read (env : Env) (args : Args.t)
    (files : gmap Path node) (f : Path) :
  f ∈ processed_files (trace (run env args files)) →
  ∃ enex_input,
    enex_input ∈ Args.enex_input args
    ∧ if is_dir files enex_input then
        PyPath.under enex_input f = true
        ∧ PyStr.endswith (PyPath.name f) ".enex" = true
      else f = enex_input.
Proof.
  unfold run.
  set (s0 := {| fs := files; done := InSet ∅; upload_calls := 0 |}).
  destruct (cli_cases env args s0)
    as [(e & t & E & Ht & _) | (root & t0 & E & Ht0 & Hdir & _)]; rewrite E.
  - unfold trace. simpl. rewrite (processed_files_prelude _ Ht).
    by intros ?%elem_of_nil.
  - rewrite trace_prepend, processed_files_app,
      (processed_files_prelude _ Ht0). simpl.
    apply (cli_inputs_reads env (uploader_of env args root) files);
      [|done].
    intros p Hp. simpl in Hp. apply Hdir.
    destruct (Args.done_file args); by simplify_eq/=.
Qed.

Lemma only_the_inputs_are_read_witness :
  ∃ enex_input,
    enex_input ∈ [["test_dir"]; ["other"; "c.enex"]]
    ∧ if is_dir test_dir enex_input then
        PyPath.under enex_input ["test_dir"; "a"; "z.enex"] = true
        ∧ PyStr.endswith (PyPath.name ["test_dir"; "a"; "z.enex"]) ".enex"
          = true
      else ["test_dir"; "a"; "z.enex"] = enex_input.
Proof.
  apply (only_the_inputs_are_read (mock_api [fake_note "fake_hash"] (λ _, false))
           (default_args None None [["test_dir"]; ["other"; "c.enex"]])
           test_dir ["test_dir"; "a"; "z.enex"]).
  apply (bool_decide_unpack _). vm_compute. exact I.
Defined.

(** ** The order of the uploads *)

Section Order.

Context (env : Env).

Lemma to_upload_app (blocks : Note → bool) (l1 l2 : list Note) :
  ∀ seen,
    to_upload blocks seen (l1 ++ l2)
    = to_upload blocks seen l1
      ++ to_upload blocks (list_to_set (to_upload blocks seen l1) ∪ seen) l2.
Proof.
  induction l1 as [|n l1 IH]; intros seen; simpl.
  { f_equal. set_solver. }
  destruct (bool_decide (note_hash n ∈ seen)); [apply IH|].
  destruct (blocks n); [|apply IH].
  simpl. f_equal. rewrite IH. f_equal. f_equal. set_solver.
Qed.

Lemma notes_read_app (t1 t2 : list event) :
  notes_read env (t1 ++ t2) = notes_read env t1 ++ notes_read env t2.
Proof.
  unfold notes_read. by rewrite processed_files_app, fmap_app, concat_app.
Qed.

Lemma done_add_uploaded (h : string) (s : state) :
  uploaded (trace (done_add h s)) = [].
Proof.
  unfold done_add. destruct (done s) as [f|hs]; [|done].
  by destruct (DoneFile.add f h (fs s)) as [f' [fs'|e]].
Qed.

Lemma upload_notes_order (self : EnexUploader env) (r : Root env)
    (notes : list Note) :
  ∀ s,
    ledger_free s →
    is_ok (outcome (upload_notes env self (Some r) notes s)) = true →
    uploaded (trace (upload_notes env self (Some r) notes s))
    = to_upload (has_blocks_b env self) (hashes (done s)) notes.
Proof.
  induction notes as [|note rest IH]; intros s Hf Hok; [done|].
  rewrite upload_notes_cons in Hok |- *. rewrite done_contains_hashes in *.
  cbn [to_upload].
  destruct (bool_decide (note_hash note ∈ hashes (done s))) eqn:Ec.
  { rewrite outcome_prepend in Hok. rewrite trace_prepend, uploaded_app.
    simpl. by apply IH. }
  apply bool_decide_eq_false in Ec. cbv zeta in *.
  unfold has_blocks_b. rewrite _parse_note_eq in *.
  set (note' := append_custom_tag env self note) in *.
  destruct (parse_note env note' _ _ _ _ _) as [[|b bs]|] eqn:Ep; [| |done].
  { rewrite outcome_prepend in Hok. rewrite trace_prepend, uploaded_app.
    simpl. by apply IH. }
  rewrite _upload_note_eq in *. set (k := leading_failures _ _ 5) in *.
  destruct (k <? 5); [|done].
  assert (Hh : note_hash note' ∉ hashes (done s)).
  { unfold note'. by rewrite note_hash_append_custom_tag. }
  destruct (ledger_rel_uploaded note' (retry_message note') k s Hh Hf)
    as (s3 & t3 & E & H3).
  fold (called_times (S k) s) in *. rewrite E in *.
  rewrite outcome_prepend in Hok. rewrite trace_prepend.
  destruct (H3 Hf) as (Hf3 & _ & Hh3 & _).
  assert (Ht3 : uploaded t3 = []).
  { pose proof (done_add_uploaded (note_hash note') (called_times (S k) s))
      as H. by rewrite E in H. }
  rewrite !uploaded_app, uploaded_retries, Ht3, (IH s3 Hf3 Hok), Hh3.
  rewrite !uploaded_app, uploaded_retries, Ht3. simpl.
  unfold note'. rewrite note_hash_append_custom_tag.
  f_equal. f_equal. set_solver.
Qed.

Lemma order_rel_composable (self : EnexUploader env) :
  composable (order_rel env self).
Proof.
  pose proof ledger_rel_composable as HR. split.
  - intros s b. split; [apply (comp_nil _ HR) | done].
  - intros s t1 s1 b t2 s2 [H1 P1] [H2 P2].
    split; [by eapply (comp_app _ HR)|].
    intros Hf -> Hroot.
    destruct (H1 Hf) as (Hf1 & _ & Hh1 & _).
    rewrite uploaded_app, notes_read_app, to_upload_app.
    rewrite (P1 Hf eq_refl Hroot), (P2 Hf1 eq_refl Hroot), Hh1.
    by rewrite (P1 Hf eq_refl Hroot).
Qed.

Lemma order_rel_one (self : EnexUploader env) (e : event) (s : state)
    (b : bool) :
  match e with
  | UploadNote _ _ | FileAppend _ _ | IterNotes _ => False
  | _ => True
  end →
  order_rel env self s b [e] s.
Proof.
  intros He. split; [apply ledger_rel_one; by destruct e|].
  intros _ _ _. by destruct e.
Qed.

Lemma upload_order (self : EnexUploader env) (enex_file : Path) (s : state) :
  holds (order_rel env self) (upload env self enex_file) s.
Proof.
  split; [apply upload_ledger|].
  intros Hf Hok Hroot.
  rewrite upload_eq, _get_notebook_root_eq in *. cbv zeta in *.
  destruct (import_root env self) as [root|]; [|done].
  assert (Hcase : ∀ r e0,
    let x := prepend (Log INFO ("Processing notebook '"
                                +:+ PyPath.stem enex_file +:+ "'...")
                      :: [e0] ++ [IterNotes enex_file])
               (upload_notes env self (Some r) (iter_notes env enex_file) s) in
    match e0 with
    | IterNotes _ | UploadNote _ _ => False
    | _ => True
    end →
    is_ok (outcome x) = true →
    uploaded (trace x)
    = to_upload (has_blocks_b env self) (hashes (done s))
        (notes_read env (trace x))).
  { intros r e0 x He0 Hok'. subst x.
    rewrite outcome_prepend in Hok'. rewrite trace_prepend.
    change (Log INFO _ :: [e0] ++ [IterNotes enex_file])
      with ([Log INFO ("Processing notebook '"
                       +:+ PyPath.stem enex_file +:+ "'..."); e0]
            ++ [IterNotes enex_file]).
    unfold notes_read.
    rewrite !uploaded_app, !processed_files_app, upload_notes_no_iter.
    rewrite (upload_notes_order self r _ s Hf Hok').
    destruct e0; try done; simpl; by rewrite !app_nil_r. }
  destruct (mode env self).
  - destruct (get_notebook_database env root _) as [r|]; [|done].
    by apply (Hcase r (GetNotebookDatabase (PyPath.stem enex_file))).
  - destruct (get_notebook_page env root _) as [r|]; [|done].
    by apply (Hcase r (GetNotebookPage (PyPath.stem enex_file))).
Qed.

Lemma cli_inputs_order (self : EnexUploader env) (inputs : list Path)
    (s : state) :
  holds (order_rel env self) (cli_inputs env self inputs) s.
Proof.
  apply holds_cli_inputs.
  - apply order_rel_composable.
  - intros msg s'. by apply order_rel_one.
  - apply upload_order.
Qed.

Lemma notes_read_prelude (t : list event) :
  Forall (λ e, is_prelude e) t → notes_read env t = [].
Proof. intros Ht. unfold notes_read. by rewrite processed_files_prelude. Qed.

End Order.

(** X11. In a run that uploads (a token is given) and returns, the uploads
    that succeed are, in this order, those of the notes of the export files
    in the order they were read: a note is uploaded when it yields blocks
    and its hash is neither in the done file when the run starts nor that of
    a note uploaded before it. *)
Theorem uploads_in_reading_order (env : Env) (args : Args.t)
    (files : gmap Path node) :
  truthy (Args.token args) = true →
  let x := run env args files in
  outcome x = Ok tt →
  uploaded (trace x)
  = to_upload (has_blocks_b env (uploader_of env args None))
      (hashes (initial_done files (Args.done_file args)))
      (notes_read env (trace x)).
Proof.
  intros Htok x Hok. subst x. revert Hok. unfold run.
  set (s0 := {| fs := files; done := InSet ∅; upload_calls := 0 |}).
  destruct (cli_cases env args s0)
    as [(e & t & E & _) | (root & t0 & E & Ht0 & Hdir & _ & Hroot)];
    rewrite E; [done|].
  rewrite outcome_prepend, trace_prepend. intros Hok.
  rewrite uploaded_app, notes_read_app, (uploaded_prelude _ Ht0),
    (notes_read_prelude env _ Ht0). simpl.
  destruct (cli_inputs_order env (uploader_of env args root)
              (Args.enex_input args) (ready args s0)) as [_ P].
  rewrite Hok in P.
  apply (P ltac:(intros p Hp; simpl in Hp; apply Hdir;
                 destruct (Args.done_file args); by simplify_eq/=)
           eq_refl (Hroot Htok)).
Qed.

Lemma uploads_in_reading_order_witness :
  let env := mock_api [fake_note "fake_hash2"; fake_note "fake_hash1";
                       fake_note "fake_hash2"; fake_note "fake_hash3"]
               (λ n, n <? 2) in
  let args := default_args (Some "fake_token") (Some ["done.txt"])
                [["fake.enex"]] in
  let files := {[ ["done.txt"] := File (DoneFile.line "fake_hash1") ]} in
  let x := run env args files in
  uploaded (trace x) = ["fake_hash2"; "fake_hash3"]
  ∧ uploaded (trace x)
    = to_upload (has_blocks_b env (uploader_of env args None))
        (hashes (initial_done files (Args.done_file args)))
        (notes_read env (trace x)).
Proof.
  intros env args files x. split; [vm_compute; reflexivity|].
  apply (uploads_in_reading_order env args files);
    [reflexivity | vm_compute; reflexivity].
Defined.

(** ** Notebook lookups *)

Section Lookups.

Context (env : Env).

Lemma lookups_app (a b : list event) : lookups (a ++ b) = lookups a ++ lookups b.
Proof. apply omap_app. Qed.

Lemma lookups_note_events (t : list event) :
  Forall (λ e, is_note_event e) t → lookups t = [].
Proof. induction 1 as [|e t He _ IH]; [done|]. by destruct e. Qed.

Lemma lookups_prelude (t : list event) :
  Forall (λ e, is_prelude e) t → lookups t = [].
Proof. induction 1 as [|e t He _ IH]; [done|]. by destruct e. Qed.

Lemma retries_note_events (n : Note) (msg : string) (k : nat) :
  Forall (λ e, is_note_event e) (retries n msg k).
Proof. induction k as [|k IH]; [done|]. simpl. by repeat constructor. Qed.

Lemma done_add_note_events (h : string) (s : state) :
  Forall (λ e, is_note_event e) (trace (done_add h s)).
Proof.
  unfold done_add. destruct (done s) as [f|hs]; [|done].
  destruct (DoneFile.add f h (fs s)) as [f' [fs'|e]]; [|done].
  by repeat constructor.
Qed.

(** The loop over the notes logs, parses, uploads and writes the done file,
    and does nothing else. *)
Lemma upload_notes_note_events (self : EnexUploader env)
    (notebook_root : option (Root env)) (notes : list Note) :
  ∀ s, Forall (λ e, is_note_event e)
         (trace (upload_notes env self notebook_root notes s)).
Proof.
  induction notes as [|note rest IH]; intros s; [done|].
  rewrite upload_notes_cons.
  destruct (done_contains (done s) (note_hash note)).
  { rewrite trace_prepend. apply Forall_app. split; [by repeat constructor|].
    apply IH. }
  cbv zeta. rewrite _parse_note_eq.
  set (note' := append_custom_tag env self note).
  destruct (parse_note env note' _ _ _ _ _) as [[|b bs]|].
  - rewrite trace_prepend. apply Forall_app.
    split; [by repeat constructor | apply IH].
  - destruct notebook_root as [r|].
    2:{ rewrite trace_prepend. apply Forall_app.
        split; [by repeat constructor | apply IH]. }
    rewrite _upload_note_eq.
    set (k := leading_failures _ _ 5). destruct (k <? 5).
    + pose proof (done_add_note_events (note_hash note')
                    {| fs := fs s; done := done s;
                       upload_calls := S k + upload_calls s |}) as Hd.
      destruct (done_add _ _) as [[[[]|e] s3] t3]; unfold trace in Hd;
        simpl in Hd.
      * rewrite trace_prepend. rewrite !Forall_app.
        split_and!; [by repeat constructor | apply retries_note_events
                    | by repeat constructor | done | apply IH].
      * unfold trace. simpl. constructor; [done|]. rewrite !Forall_app.
        split_and!; [apply retries_note_events | by repeat constructor
                    | done].
    + unfold trace. simpl. by repeat constructor.
  - unfold trace. simpl. by repeat constructor.
Qed.

Lemma lookup_rel_composable (self : EnexUploader env) :
  composable (lookup_rel env self).
Proof.
  unfold lookup_rel. split.
  - intros s b. by destruct (import_root env self).
  - intros s t1 s1 b t2 s2. rewrite lookups_app, processed_files_app.
    destruct (import_root env self).
    + intros [F1 E1] [F2 E2]. split; [by apply Forall_app|].
      intros ->. by rewrite fmap_app, E1, E2.
    + by intros -> ->.
Qed.

Lemma lookup_rel_quiet (self : EnexUploader env) (s s' : state) (b : bool)
    (t : list event) :
  lookups t = [] → processed_files t = [] → lookup_rel env self s b t s'.
Proof.
  intros E1 E2. unfold lookup_rel. rewrite E1, E2.
  by destruct (import_root env self).
Qed.

Lemma upload_lookup (self : EnexUploader env) (enex_file : Path) (s : state) :
  holds (lookup_rel env self) (upload env self enex_file) s.
Proof.
  unfold holds, lookup_rel.
  rewrite upload_eq, _get_notebook_root_eq. cbv zeta.
  assert (Hn : ∀ root,
    lookups (trace (upload_notes env self root (iter_notes env enex_file) s))
    = []).
  { intros root. apply lookups_note_events, upload_notes_note_events. }
  destruct (import_root env self) as [root|].
  - destruct (mode env self).
    + destruct (get_notebook_database env root _) as [r|].
      * rewrite trace_prepend.
        change (Log INFO _ :: [GetNotebookDatabase (PyPath.stem enex_file)]
                ++ [IterNotes enex_file])
          with ([Log INFO ("Processing notebook '" +:+ PyPath.stem enex_file
                           +:+ "'...");
                 GetNotebookDatabase (PyPath.stem enex_file);
                 IterNotes enex_file]).
        rewrite lookups_app, processed_files_app, Hn, upload_notes_no_iter.
        simpl. split; [by repeat constructor | done].
      * unfold trace, outcome. simpl. split; [by repeat constructor | done].
    + destruct (get_notebook_page env root _) as [r|].
      * rewrite trace_prepend.
        change (Log INFO _ :: [GetNotebookPage (PyPath.stem enex_file)]
                ++ [IterNotes enex_file])
          with ([Log INFO ("Processing notebook '" +:+ PyPath.stem enex_file
                           +:+ "'...");
                 GetNotebookPage (PyPath.stem enex_file);
                 IterNotes enex_file]).
        rewrite lookups_app, processed_files_app, Hn, upload_notes_no_iter.
        simpl. split; [by repeat constructor | done].
      * unfold trace, outcome. simpl. split; [by repeat constructor | done].
  - rewrite trace_prepend, lookups_app, Hn. done.
Qed.

Lemma cli_inputs_lookup (self : EnexUploader env) (inputs : list Path)
    (s : state) :
  holds (lookup_rel env self) (cli_inputs env self inputs) s.
Proof.
  apply holds_cli_inputs.
  - apply lookup_rel_composable.
  - intros msg s'. by apply lookup_rel_quiet.
  - apply upload_lookup.
Qed.

Lemma length_append (a b : string) :
  String.length (a +:+ b) = String.length a + String.length b.
Proof.
  induction a as [|c a IH]; [done|]. rewrite append_cons. simpl. by rewrite IH.
Qed.

Lemma substring_prefix (a b : string) :
  substring 0 (String.length a) (a +:+ b) = a.
Proof.
  induction a as [|c a IH].
  - simpl. by destruct (_ +:+ _).
  - rewrite append_cons. simpl. by rewrite IH.
Qed.

Lemma rfind_app (c : ascii) (a b : string) (i : nat) :
  PyStr.rfind c b = Some i →
  PyStr.rfind c (a +:+ b) = Some (String.length a + i).
Proof.
  intros Hb. induction a as [|x a IH]; [done|].
  rewrite append_cons. simpl. by rewrite IH.
Qed.

(** The stem of a name that ends in [.enex] is what stands before it. *)
Lemma stem_enex (dir : Path) (base : string) :
  base ≠ "" → PyPath.stem (dir ++ [base +:+ ".enex"]) = base.
Proof.
  intros Hne. unfold PyPath.stem, PyPath.name. rewrite last_last.
  rewrite (rfind_app "."%char base ".enex" 0 eq_refl), Nat.add_0_r.
  rewrite length_append. simpl String.length.
  assert (0 < String.length base) by (destruct base; [done | simpl; lia]).
  destruct (0 <? String.length base) eqn:E1; [|apply Nat.ltb_ge in E1; lia].
  destruct (String.length base <? String.length base + 5 - 1) eqn:E2;
    [|apply Nat.ltb_ge in E2; lia].
  simpl. apply substring_prefix.
Qed.

End Lookups.

(** X12. In a run with a token, every notebook lookup is of the mode asked
    for: with [--mode DB] no page is looked up, with [--mode PAGE] no
    database. When the run returns, there has been one lookup for each
    export file read, in reading order, under the stem of the file's name. *)
Theorem mode_selects_the_lookup (env : Env) (args : Args.t)
    (files : gmap Path node) :
  truthy (Args.token args) = true →
  let x := run env args files in
  Forall (λ l, l.1 = Args.mode args) (lookups (trace x))
  ∧ (outcome x = Ok tt →
     lookups (trace x)
     = (λ f, (Args.mode args, PyPath.stem f)) <$> processed_files (trace x)).
Proof.
  intros Htok x. subst x. unfold run.
  set (s0 := {| fs := files; done := InSet ∅; upload_calls := 0 |}).
  destruct (cli_cases env args s0)
    as [(e & t & E & Ht & _) | (root & t0 & E & Ht0 & _ & _ & Hroot)];
    rewrite E.
  - unfold trace, outcome. simpl. rewrite (lookups_prelude _ Ht).
    split; [done | discriminate].
  - rewrite trace_prepend, outcome_prepend, lookups_app, processed_files_app,
      (lookups_prelude _ Ht0), (processed_files_prelude _ Ht0). simpl.
    pose proof (cli_inputs_lookup env (uploader_of env args root)
                  (Args.enex_input args) (ready args s0)) as H.
    unfold holds, lookup_rel in H. simpl in H.
    destruct root as [r|]; [|by destruct (Hroot Htok)].
    destruct H as [HF HE]. split; [done|].
    intros Hok. apply HE. by rewrite Hok.
Qed.

Lemma mode_selects_the_lookup_witness :
  let x := run (mock_api [fake_note "fake_hash"] (λ _, false))
             {| Args.enex_input := [["fake.enex"]];
                Args.token := Some "fake_token";
                Args.root_page := "Evernote ENEX Import"; Args.mode := PAGE;
                Args.mode_webclips := TXT; Args.add_pdf_preview := false;
                Args.add_meta := false; Args.tag := None;
                Args.condense_lines := false;
                Args.condense_lines_sparse := false;
                Args.done_file := None; Args.log := None;
                Args.verbose := false |} ∅ in
  lookups (trace x) = [(PAGE, "fake")]
  ∧ Forall (λ l, l.1 = PAGE) (lookups (trace x))
  ∧ (outcome x = Ok tt →
     lookups (trace x)
     = (λ f, (PAGE, PyPath.stem f)) <$> processed_files (trace x)).
Proof.
  intros x. split; [vm_compute; reflexivity|].
  apply (mode_selects_the_lookup (mock_api [fake_note "fake_hash"] (λ _, false))
           {| Args.enex_input := [["fake.enex"]];
              Args.token := Some "fake_token";
              Args.root_page := "Evernote ENEX Import"; Args.mode := PAGE;
              Args.mode_webclips := TXT; Args.add_pdf_preview := false;
              Args.add_meta := false; Args.tag := None;
              Args.condense_lines := false;
              Args.condense_lines_sparse := false;
              Args.done_file := None; Args.log := None;
              Args.verbose := false |} ∅).
  reflexivity.
Defined.

(** X13. The notebook of an export file is named after the file: for a file
    [<base>.enex] with a base that is not empty, [upload] announces and, with
    an import root, looks up the notebook [<base>], once and in the
    uploader's mode, whatever dots the base has and wherever the file
    lies. *)
Theorem notebook_is_named_after_the_file (env : Env)
    (self : EnexUploader env) (dir : Path) (base : string) (s : state) :
  base ≠ "" →
  let x := upload env self (dir ++ [base +:+ ".enex"]) s in
  (∃ rest, trace x
           = Log INFO ("Processing notebook '" +:+ base +:+ "'...") :: rest)
  ∧ (import_root env self ≠ None →
     lookups (trace x) = [(mode env self, base)]).
Proof.
  intros Hne x. subst x.
  pose proof (upload_notes_note_events env self) as Hn.
  rewrite upload_eq, _get_notebook_root_eq. cbv zeta.
  rewrite (stem_enex dir base Hne).
  destruct (import_root env self) as [root|].
  - destruct (mode env self).
    + destruct (get_notebook_database env root _) as [r|].
      * rewrite trace_prepend. split; [by eexists|]. intros _.
        change (Log INFO ?m :: [GetNotebookDatabase base] ++ ?t)
          with ([Log INFO m; GetNotebookDatabase base] ++ t).
        rewrite !lookups_app, (lookups_note_events _ (Hn _ _ _)). done.
      * unfold trace. simpl. split; [by eexists | done].
    + destruct (get_notebook_page env root _) as [r|].
      * rewrite trace_prepend. split; [by eexists|]. intros _.
        change (Log INFO ?m :: [GetNotebookPage base] ++ ?t)
          with ([Log INFO m; GetNotebookPage base] ++ t).
        rewrite !lookups_app, (lookups_note_events _ (Hn _ _ _)). done.
      * unfold trace. simpl. split; [by eexists | done].
  - rewrite trace_prepend. split; [by eexists | done].
Qed.

Lemma notebook_is_named_after_the_file_witness :
  let env := mock_api [fake_note "fake_hash"] (λ _, false) in
  let self := uploader_of env
                (default_args (Some "fake_token") None
                   [["notes"; "my.notes.v2.enex"]]) (Some tt) in
  let x := upload env self (["notes"] ++ ["my.notes.v2" +:+ ".enex"])
             {| fs := ∅; done := InSet ∅; upload_calls := 0 |} in
  (∃ rest, trace x
           = Log INFO ("Processing notebook '" +:+ "my.notes.v2" +:+ "'...")
             :: rest)
  ∧ (import_root env self ≠ None →
     lookups (trace x) = [(mode env self, "my.notes.v2")]).
Proof.
  intros env self.
  apply (notebook_is_named_after_the_file env self ["notes"] "my.notes.v2").
  discriminate.
Defined.
